(** * The eBay token lifecycle of the seller dashboard

    A shallow embedding of [src/utils/getValidAuthToken.js] and of the
    effect handlers of [src/pages/Home.jsx] (the OAuth message handler,
    the mount-time token check, the listings fetch with its
    refresh-on-932 path, and the two global signal handlers), followed by
    the properties of the token state machine.

    JavaScript values are untyped: every response, event payload and
    stored token is a [jsval], and the handlers are written with the same
    truthiness tests, property reads and optional chains the source has.
    Handlers run in a small state-and-exception monad over the browser's
    [localStorage], the dashboard's React state and a chronological trace
    of the effects performed. *)

From stdpp Require Import base strings gmap list.
From Stdlib Require Import ZArith Ascii String DecimalString Lia.
From Stdlib Require DecimalPos DecimalFacts.

Local Open Scope string_scope.
Local Open Scope Z_scope.
Local Open Scope list_scope.

(** ** JavaScript values *)

(** Numbers.  The quantities of this program are epoch milliseconds and
    lifetimes in seconds, so numbers are the integers together with [NaN];
    fractions and infinities are outside the model. *)
Inductive jsnum :=
| Num (z : Z)
| NaN.

#[warnings="-register-all"]
Inductive jsval :=
| VUndef
| VNull
| VBool (b : bool)
| VNum (n : jsnum)
| VStr (s : string)
| VArr (items : list jsval)
| VObj (fields : list (string * jsval)).

Definition num_eqb (a b : jsnum) : bool :=
  match a, b with
  | Num x, Num y => x =? y
  | _, _ => false
  end.

Definition num_add (a b : jsnum) : jsnum :=
  match a, b with
  | Num x, Num y => Num (x + y)
  | _, _ => NaN
  end.

Definition num_mul (a b : jsnum) : jsnum :=
  match a, b with
  | Num x, Num y => Num (x * y)
  | _, _ => NaN
  end.

Arguments num_add : simpl never.
Arguments num_mul : simpl never.

(** [a < b] on numbers; any comparison with [NaN] is false. *)
Definition num_lt (a b : jsnum) : bool :=
  match a, b with
  | Num x, Num y => x <? y
  | _, _ => false
  end.

(** ToBoolean. *)
Definition truthy (v : jsval) : bool :=
  match v with
  | VUndef | VNull => false
  | VBool b => b
  | VNum (Num z) => negb (z =? 0)
  | VNum NaN => false
  | VStr s => negb (String.eqb s "")
  | VArr _ | VObj _ => true
  end.

(** [a || b] for operands without effects. *)
Definition js_or (a b : jsval) : jsval := if truthy a then a else b.

Definition nullish (v : jsval) : bool :=
  match v with
  | VUndef | VNull => true
  | _ => false
  end.

Definition typeof (v : jsval) : string :=
  match v with
  | VUndef => "undefined"
  | VNull => "object"
  | VBool _ => "boolean"
  | VNum _ => "number"
  | VStr _ => "string"
  | VArr _ | VObj _ => "object"
  end.

(** [v === n] for a number literal [n]. *)
Definition strict_eq_num (v : jsval) (n : Z) : bool :=
  match v with
  | VNum m => num_eqb m (Num n)
  | _ => false
  end.

(** Objects are property lists in which a name occurs once; a read takes
    the first binding and yields [undefined] for a missing name. *)
Fixpoint lookup_field (name : string) (fields : list (string * jsval)) : jsval :=
  match fields with
  | [] => VUndef
  | (k, v) :: rest => if String.eqb k name then v else lookup_field name rest
  end.

(** The value of [v.name] for a [v] that is neither [null] nor
    [undefined].  None of the property names this program reads ([id],
    [code], [state], [expires_in], [success], [error], [data],
    [access_token], [refresh_token], [errors], [errorId], [response],
    [status], [message], [value], [expiry], [expires_in_seconds]) exists
    on a primitive, an array or [Object.prototype], so only own
    properties of objects answer. *)
Definition own_prop (v : jsval) (name : string) : jsval :=
  match v with
  | VObj fields => lookup_field name fields
  | _ => VUndef
  end.

(** The value of [v[0]] for a non-nullish [v]. *)
Definition elem0 (v : jsval) : jsval :=
  match v with
  | VArr (x :: _) => x
  | VStr (String c _) => VStr (String c EmptyString)
  | VObj fields => lookup_field "0" fields
  | _ => VUndef
  end.

(** [Object.is] as React applies it to a state setter's argument and to
    effect dependencies.  Primitives are compared by value.  Arrays and
    objects are compared by reference; every compound value this program
    hands to a setter was freshly built by [JSON.parse] or by a network
    response, so it is never the reference already held. *)
Definition Object_is (a b : jsval) : bool :=
  match a, b with
  | VUndef, VUndef => true
  | VNull, VNull => true
  | VBool x, VBool y => Bool.eqb x y
  | VNum (Num x), VNum (Num y) => x =? y
  | VNum NaN, VNum NaN => true
  | VStr x, VStr y => String.eqb x y
  | _, _ => false
  end.

(** ** The browser *)

(** Built-ins the source calls but does not define.  [JSON_parse]
    answers [None] where [JSON.parse] throws a [SyntaxError]. *)
Class Browser := {
  JSON_parse : string → option jsval;
  JSON_stringify : jsval → string;
  (** [String(v)] for a [v] that is not a string. *)
  ToString_builtin : jsval → string;
  (** [Number(v)] for a string, an array or an object. *)
  ToNumber_builtin : jsval → jsnum;
  (** The message of the [TypeError] raised by reading property [name]
      of [null] or [undefined]. *)
  TypeError_message : jsval → string → string;
  (** [window.location.origin]. *)
  window_location_origin : string;
}.

(** ** State, effects and the handler monad *)

(** The five pieces of React state of [Home]. *)
Record DashboardState := {
  page : Z;
  ebayToken : jsval;
  needsConnection : bool;
  loadingListings : bool;
  listingsError : jsval;
}.

(** [useState] initial values. *)
Definition initial_dashboard : DashboardState :=
  {| page := 1; ebayToken := VNull; needsConnection := false;
     loadingListings := false; listingsError := VNull |}.

Inductive request :=
| GetEbayUserToken (userId : jsval)
| ExchangeCode (code userId : jsval)
| RefreshEbayUserToken (userId : jsval)
| GetActiveListings.

(** What a handler does to the world, in the order it does it.  Console
    output is not recorded. *)
Inductive effect :=
| StorageSet (key value : string)
| StorageRemove (key : string)
| Network (r : request)
| SetEbayToken (v : jsval)
| SetNeedsConnection (b : bool)
| SetLoadingListings (b : bool)
| SetListingsError (v : jsval)
| Reload.

Record world := {
  localStorage : gmap string string;
  dash : DashboardState;
  trace : list effect;
}.

(** A computation ends normally with a value or throws one. *)
Inductive completion (A : Type) :=
| Normal (a : A)
| Throw (e : jsval).
Arguments Normal {A} a.
Arguments Throw {A} e.

Definition M (A : Type) : Type := world → completion A * world.

#[global] Instance M_ret : MRet M := λ A a w, (Normal a, w).

#[global] Instance M_bind : MBind M := λ A B f m w,
  match m w with
  | (Normal a, w') => f a w'
  | (Throw e, w') => (Throw e, w')
  end.

Definition throw {A} (e : jsval) : M A := λ w, (Throw e, w).

(** [try { body } catch (err) { handler err }] *)
Definition try_catch {A} (body : M A) (handler : jsval → M A) : M A := λ w,
  match body w with
  | (Normal a, w') => (Normal a, w')
  | (Throw e, w') => handler e w'
  end.

(** [try { body } finally { cleanup }]: the cleanup runs on every exit
    and the body's completion is kept unless the cleanup throws. *)
Definition try_finally {A} (body : M A) (cleanup : M ()) : M A := λ w,
  match body w with
  | (c, w') =>
      match cleanup w' with
      | (Normal _, w'') => (c, w'')
      | (Throw e, w'') => (Throw e, w'')
      end
  end.

Definition emit (e : effect) (w : world) : world :=
  let '{| localStorage := storage; dash := d; trace := tr |} := w in
  {| localStorage := storage; dash := d; trace := tr ++ [e] |}.

Section Dashboard.
Context `{Browser}.

Definition ToString (v : jsval) : string :=
  match v with
  | VStr s => s
  | _ => ToString_builtin v
  end.

Definition ToNumber (v : jsval) : jsnum :=
  match v with
  | VUndef => NaN
  | VNull => Num 0
  | VBool true => Num 1
  | VBool false => Num 0
  | VNum n => n
  | _ => ToNumber_builtin v
  end.

Definition type_error (base : jsval) (name : string) : jsval :=
  VObj [("message", VStr (TypeError_message base name))].

(** [v.name] *)
Definition get (v : jsval) (name : string) : M jsval :=
  if nullish v then throw (type_error v name) else mret (own_prop v name).

(** [v?.name] *)
Definition get_opt (v : jsval) (name : string) : jsval :=
  if nullish v then VUndef else own_prop v name.

(** [v?.[0]] *)
Definition elem0_opt (v : jsval) : jsval :=
  if nullish v then VUndef else elem0 v.

(** [localStorage.getItem(key)]: the stored string, or [null]. *)
Definition getItem (key : string) : M jsval := λ w,
  let '{| localStorage := storage; dash := d; trace := tr |} := w in
  (Normal (match storage !! key with
           | Some s => VStr s
           | None => VNull
           end),
   {| localStorage := storage; dash := d; trace := tr |}).

(** [localStorage.setItem(key, v)] stores [String(v)].  The write is
    taken to be accepted.  A browser can refuse it (a full quota) and the
    real call then throws; that is not modelled, so what is proved of a
    run that writes is proved of the runs whose writes are accepted. *)
Definition setItem (key : string) (v : jsval) : M () := λ w,
  let '{| localStorage := storage; dash := d; trace := tr |} := w in
  (Normal (),
   {| localStorage := <[key := ToString v]> storage; dash := d;
      trace := tr ++ [StorageSet key (ToString v)] |}).

Definition removeItem (key : string) : M () := λ w,
  let '{| localStorage := storage; dash := d; trace := tr |} := w in
  (Normal (),
   {| localStorage := delete key storage; dash := d;
      trace := tr ++ [StorageRemove key] |}).

(** The settled result of an awaited API promise. *)
Inductive outcome :=
| Resolve (v : jsval)
| Reject (e : jsval).

(** [await apiService.…(…)]: the request goes out, then the promise
    settles as the network decides. *)
Definition await (r : request) (o : outcome) : M jsval := λ w,
  match o with
  | Resolve v => (Normal v, emit (Network r) w)
  | Reject e => (Throw e, emit (Network r) w)
  end.

(** A state setter: the update [f] is applied and recorded as [e]. *)
Definition update_dash (f : DashboardState → DashboardState) (e : effect)
  : M () := λ w,
  let '{| localStorage := storage; dash := d; trace := tr |} := w in
  (Normal (), {| localStorage := storage; dash := f d; trace := tr ++ [e] |}).

Definition setEbayToken (v : jsval) : M () :=
  update_dash
    (λ '{| page := p; ebayToken := _; needsConnection := connect;
           loadingListings := loading; listingsError := error |},
       {| page := p; ebayToken := v; needsConnection := connect;
          loadingListings := loading; listingsError := error |})
    (SetEbayToken v).

Definition setNeedsConnection (b : bool) : M () :=
  update_dash
    (λ '{| page := p; ebayToken := token; needsConnection := _;
           loadingListings := loading; listingsError := error |},
       {| page := p; ebayToken := token; needsConnection := b;
          loadingListings := loading; listingsError := error |})
    (SetNeedsConnection b).

Definition setLoadingListings (b : bool) : M () :=
  update_dash
    (λ '{| page := p; ebayToken := token; needsConnection := connect;
           loadingListings := _; listingsError := error |},
       {| page := p; ebayToken := token; needsConnection := connect;
          loadingListings := b; listingsError := error |})
    (SetLoadingListings b).

Definition setListingsError (v : jsval) : M () :=
  update_dash
    (λ '{| page := p; ebayToken := token; needsConnection := connect;
           loadingListings := loading; listingsError := _ |},
       {| page := p; ebayToken := token; needsConnection := connect;
          loadingListings := loading; listingsError := v |})
    (SetListingsError v).

(** [window.location.reload()] *)
Definition reload : M () := λ w, (Normal (), emit Reload w).

(** ** src/utils/getValidAuthToken.js *)

(** [{ value, expiry }] as handed to [JSON.stringify]. *)
Definition AccessTokenRecord (value expiry : jsval) : jsval :=
  VObj [("value", value); ("expiry", expiry)].

(** Step 1 of [getValidAuthToken]: [Some v] when the function returns [v]
    from inside the [try], [None] when control falls through to step 2.
    [now] is the reading of [Date.now()] on line 19. *)
Definition stored_token (raw : jsval) (now : Z) : M (option jsval) :=
  if truthy raw then
    try_catch
      (parsed ← match JSON_parse (ToString raw) with
                | Some p => mret p
                | None => throw (VObj [("name", VStr "SyntaxError")])
                end;
       value ← get parsed "value";
       expiry ← get parsed "expiry";
       if String.eqb (typeof expiry) "number"
          && num_lt (Num now) (ToNumber expiry)
          && truthy value
       then mret (Some value)
       else mret None)
      (λ _e, mret None)
  else mret None.

(** Steps 2 to 4 of [getValidAuthToken]: ask the backend.  [resp] is how
    the promise of [apiService.auth.getEbayUserToken(userId)] settles and
    [now] is the reading of [Date.now()] on line 53. *)
Definition remote_token (userId : jsval) (resp : outcome) (now : Z) : M jsval :=
  settled ← try_catch
              (resp ← await (GetEbayUserToken userId) resp; mret (Some resp))
              (λ _err, mret None);
  match settled with
  | None => mret VNull
  | Some resp =>
      if truthy resp
         && truthy (own_prop resp "success")
         && truthy (own_prop resp "data")
         && String.eqb
              (typeof (own_prop (own_prop resp "data") "access_token"))
              "string"
      then
        let newToken := own_prop (own_prop resp "data") "access_token" in
        let expiresIn := own_prop (own_prop resp "data") "expires_in_seconds" in
        setItem "ebay_user_token"
          (VStr (JSON_stringify
             (AccessTokenRecord newToken
                (VNum (num_add (Num now)
                         (num_mul (ToNumber expiresIn) (Num 1000)))))));;
        mret newToken
      else mret VNull
  end.

(** [getValidAuthToken(userId)].  [now_check] and [now_store] are the
    readings of [Date.now()] on lines 19 and 53; [resp] is how the
    backend call settles if it is made. *)
Definition getValidAuthToken (userId : jsval)
    (now_check : Z) (resp : outcome) (now_store : Z) : M jsval :=
  raw ← getItem "ebay_user_token";
  local ← stored_token raw now_check;
  match local with
  | Some value => mret value
  | None => remote_token userId resp now_store
  end.

(** ** src/pages/Home.jsx *)

(** [new Error(message)] *)
Definition Error (message : jsval) : jsval :=
  VObj [("message", VStr (ToString message))].

(** [handleMessage(event)], the listener for the OAuth popup's message.
    [user] is the closure's user; [exchanged] is how the promise of
    [apiService.auth.exchangeCode] settles if the call is made and [now]
    is the reading of [Date.now()] on line 47. *)
Definition handleMessage (user : jsval) (event_origin : string)
    (event_data : jsval) (exchanged : outcome) (now : Z) : M () :=
  if negb (String.eqb event_origin window_location_origin) then mret ()
  else
    code ← get event_data "code";
    _state ← get event_data "state";
    _expires_in ← get event_data "expires_in";
    if truthy code && truthy (get_opt user "id") then
      try_catch
        (userId ← get user "id";
         resp ← await (ExchangeCode code userId) exchanged;
         success ← get resp "success";
         if negb (truthy success) then
           error ← get resp "error";
           throw (Error (js_or error (VStr "Exchange failed")))
         else
           userId ← get user "id";
           setItem "userId" userId;;
           data ← get resp "data";
           expires_in ← get data "expires_in";
           let expiresIn := js_or expires_in (VNum (Num 7200)) in
           let expiresAt :=
             num_add (Num now) (num_mul (ToNumber expiresIn) (Num 1000)) in
           data ← get resp "data";
           access_token ← get data "access_token";
           setItem "ebay_user_token"
             (VStr (JSON_stringify
                (AccessTokenRecord access_token (VNum expiresAt))));;
           data ← get resp "data";
           refresh_token ← get data "refresh_token";
           (if truthy refresh_token
            then setItem "ebay_refresh_token" refresh_token
            else mret ());;
           data ← get resp "data";
           access_token ← get data "access_token";
           setEbayToken access_token;;
           setNeedsConnection false)
        (λ _err, mret ())
    else mret ().

(** [checkToken()], run on mount and whenever [user] changes.  The three
    environment arguments are those of [getValidAuthToken]. *)
Definition checkToken (user : jsval)
    (now_check : Z) (resp : outcome) (now_store : Z) : M () :=
  if negb (truthy user) || negb (truthy (own_prop user "id")) then mret ()
  else
    localToken ← getItem "ebay_user_token";
    (if truthy localToken
     then setEbayToken localToken;; setNeedsConnection false
     else mret ());;
    try_catch
      (userId ← get user "id";
       token ← getValidAuthToken userId now_check resp now_store;
       if truthy token then
         setItem "ebay_user_token" token;;
         setEbayToken token;;
         setNeedsConnection false
       else if negb (truthy localToken) then setNeedsConnection true
       else mret ())
      (λ _err,
         if negb (truthy localToken) then setNeedsConnection true
         else mret ()).

(** The teardown shared by the refresh-failure branch and the 401
    branch (lines 140-143 and 157-160). *)
Definition clear_tokens_and_show_connect : M () :=
  removeItem "ebay_user_token";;
  removeItem "ebay_refresh_token";;
  setEbayToken VNull;;
  setNeedsConnection true.

(** [fetchListings()].  [listings] and [refresh] are how the promises of
    [apiService.inventory.getActiveListings()] and of
    [apiService.auth.refreshEbayUserToken(user.id)] settle, the latter
    if the call is made; [now] is the reading of [Date.now()] on line
    133.  Both arms of the 932 test end in [return], so the statement
    after them is the [else] of that test. *)
Definition fetchListings (user : jsval)
    (listings : outcome) (refresh : outcome) (now : Z) : M () :=
  setLoadingListings true;;
  setListingsError VNull;;
  try_finally
    (try_catch
       (data ← await GetActiveListings listings;
        success ← get data "success";
        if negb (truthy success) then
          errors ← get data "errors";
          if strict_eq_num (get_opt (elem0_opt errors) "errorId") 932 then
            userId ← get user "id";
            refreshed ← await (RefreshEbayUserToken userId) refresh;
            if truthy (get_opt refreshed "success")
               && truthy (get_opt (own_prop refreshed "data") "access_token")
            then
              data ← get refreshed "data";
              expires_in ← get data "expires_in";
              let expires := js_or expires_in (VNum (Num 7200)) in
              data ← get refreshed "data";
              access_token ← get data "access_token";
              setItem "ebay_user_token"
                (VStr (JSON_stringify
                   (AccessTokenRecord access_token
                      (VNum (num_add (Num now)
                               (num_mul (ToNumber expires) (Num 1000)))))));;
              data ← get refreshed "data";
              access_token ← get data "access_token";
              setEbayToken access_token
            else clear_tokens_and_show_connect
          else
            error ← get data "error";
            setListingsError (js_or error (VStr "Failed to load listings."))
        else mret ())
       (λ err,
          response ← get err "response";
          if strict_eq_num (get_opt response "status") 401
             || strict_eq_num (own_prop err "status") 401
          then
            clear_tokens_and_show_connect;;
            setListingsError VNull
          else
            message ← get err "message";
            setListingsError (js_or message (VStr "Error loading listings."))))
    (setLoadingListings false).

(** The body of the listings effect, for a render whose state holds
    [token] (lines 109-171). *)
Definition listings_effect (user token : jsval)
    (listings : outcome) (refresh : outcome) (now : Z) : M () :=
  if negb (truthy token) then mret ()
  else fetchListings user listings refresh now.

(** [handleTokenExpiry()], the listener of [ebayTokenExpired]. *)
Definition handleTokenExpiry : M () :=
  setEbayToken VNull;;
  setNeedsConnection true;;
  setListingsError VNull.

(** [handleAuthFailure()], the listener of [authenticationFailed]. *)
Definition handleAuthFailure : M () :=
  removeItem "user-store";;
  removeItem "ebay_user_token";;
  removeItem "ebay_refresh_token";;
  removeItem "userId";;
  removeItem "user_id";;
  reload.

(** *** When React runs the listings effect again

    The effect depends on [[ebayToken, user]]; no handler replaces
    [user].  After the updates of a handler run are committed, React
    runs the effect again exactly when the committed [ebayToken] is not
    [Object.is] the one of the render the run started from: that is, when
    the run's last [setEbayToken] passed a different value.  (The second
    mount-time run that [React.StrictMode] adds in development is not an
    update and is not modelled.) *)
Fixpoint last_token_set (run : list effect) : option jsval :=
  match run with
  | [] => None
  | e :: rest =>
      match last_token_set rest with
      | Some v => Some v
      | None => match e with SetEbayToken v => Some v | _ => None end
      end
  end.

Definition listings_effect_reruns (token : jsval) (run : list effect) : bool :=
  match last_token_set run with
  | Some v => negb (Object_is token v)
  | None => false
  end.

(** How many times a run asked for the active listings. *)
Definition is_listings_request (e : effect) : bool :=
  match e with
  | Network GetActiveListings => true
  | _ => false
  end.

Definition listings_requests (run : list effect) : nat :=
  List.length (List.filter is_listings_request run).

(** ** Vocabulary of the properties *)

(** The string under [ebay_user_token] is a JSON text (so not empty)
    that [JSON.parse] reads as an object whose [value] and [expiry]
    properties are the given ones. *)
Definition stored_record (w : world) (value expiry : jsval) : Prop :=
  ∃ raw fields,
    localStorage w !! "ebay_user_token" = Some raw ∧ raw ≠ "" ∧
    JSON_parse raw = Some (VObj fields) ∧
    lookup_field "value" fields = value ∧
    lookup_field "expiry" fields = expiry.

(** A valid local record at time [now]: its expiry is a number still
    ahead of [now] and its value is truthy. *)
Definition local_record_valid (w : world) (now : Z) : Prop :=
  ∃ value e,
    stored_record w value (VNum (Num e)) ∧ now < e ∧ truthy value = true.

(** The ways the token-status call can fail: the promise rejects, the
    response is not successful, or it carries no token string. *)
Inductive remote_failed : outcome → Prop :=
| failed_thrown e : remote_failed (Reject e)
| failed_unsuccessful r :
    truthy (own_prop r "success") = false → remote_failed (Resolve r)
| failed_no_token r :
    typeof (own_prop (own_prop r "data") "access_token") ≠ "string" →
    remote_failed (Resolve r).

(** A listings response with [success] falsy and
    [errors[0].errorId === 932]. *)
Definition token_expired_932 (data : jsval) : Prop :=
  truthy (own_prop data "success") = false ∧
  strict_eq_num (get_opt (elem0_opt (own_prop data "errors")) "errorId") 932
    = true.

(** A refresh response that is successful and carries an access token. *)
Definition refresh_granted (refreshed : jsval) : bool :=
  truthy (get_opt refreshed "success")
  && truthy (get_opt (own_prop refreshed "data") "access_token").

(** A thrown error whose [response.status] or [status] is 401. *)
Definition carries_401 (err : jsval) : bool :=
  strict_eq_num (get_opt (own_prop err "response") "status") 401
  || strict_eq_num (own_prop err "status") 401.

(** A refresh that yields no token and is handled as such: a response
    that is not [refresh_granted], or a rejection carrying 401. *)
Inductive refresh_denied : outcome → Prop :=
| denied_response r : refresh_granted r = false → refresh_denied (Resolve r)
| denied_401 e : carries_401 e = true → refresh_denied (Reject e).

(** Someone is signed in: [user] is neither [null] nor [undefined]. *)
Definition signed_in (user : jsval) : Prop := nullish user = false.

(** The end state of a token teardown. *)
Definition torn_down (w : world) : Prop :=
  localStorage w !! "ebay_user_token" = None ∧
  localStorage w !! "ebay_refresh_token" = None ∧
  ebayToken (dash w) = VNull ∧
  needsConnection (dash w) = true ∧
  listingsError (dash w) = VNull.

(** What a token teardown leaves of the storage and of the dashboard. *)
Definition end_state (w : world) : gmap string string * DashboardState :=
  (localStorage w, dash w).

(** The world a teardown inside [fetchListings] ends in, given the
    effects of the run. *)
Definition torn_down_world (w : world) (run : list effect) : world :=
  {| localStorage :=
       delete "ebay_refresh_token" (delete "ebay_user_token" (localStorage w));
     dash := {| page := page (dash w); ebayToken := VNull;
                needsConnection := true; loadingListings := false;
                listingsError := VNull |};
     trace := trace w ++ run |}.

(** A computation that asks for the active listings [n] times on every
    run, however it completes. *)
Definition requests_listings {A} (n : nat) (m : M A) : Prop :=
  ∀ w, ∃ run, trace (m w).2 = trace w ++ run ∧ listings_requests run = n.

(** The world right after [checkToken] has put the stored string [raw]
    on screen (lines 82-83), before it awaits the validator. *)
Definition local_token_shown (raw : string) (w : world) : world :=
  {| localStorage := localStorage w;
     dash := {| page := page (dash w); ebayToken := VStr raw;
                needsConnection := false;
                loadingListings := loadingListings (dash w);
                listingsError := listingsError (dash w) |};
     trace := trace w ++ [SetEbayToken (VStr raw); SetNeedsConnection false] |}.

(** An effect that, if it writes the token key, writes the JSON text
    of a [{ value, expiry }] record. *)
Definition writes_record (e : effect) : Prop :=
  match e with
  | StorageSet key text =>
      key = "ebay_user_token" →
      ∃ value expiry, text = JSON_stringify (AccessTokenRecord value expiry)
  | _ => True
  end.

(** A computation all of whose effects, on every run and however it
    completes, satisfy [P]. *)
Definition only_emits {A} (P : effect → Prop) (m : M A) : Prop :=
  ∀ w, ∃ run, trace (m w).2 = trace w ++ run ∧ Forall P run.

(** The persistence keys of the hard reset. *)
Definition purged_keys : list string :=
  ["user-store"; "ebay_user_token"; "ebay_refresh_token"; "userId"; "user_id"].

(** The effects a computation adds to the trace of [w]. *)
Definition effects_of {A} (m : M A) (w : world) : list effect :=
  drop (List.length (trace w)) (trace (m w).2).

(** ** What [Home] renders (lines 206-302)

    The connect prompt when [needsConnection] is set; otherwise the page
    chrome, with the dashboard panel only on the [/home] route: the
    loading line, else the error line when [listingsError] is truthy,
    else the listings table with its pagination.

    The error line has [{listingsError}] as a child (line 283).  React
    renders a string or a number as text, renders nothing for a boolean,
    [null] or [undefined], renders the items of an array, and throws on
    a plain object: the render then fails instead of showing a line. *)
Fixpoint valid_child (v : jsval) : bool :=
  match v with
  | VObj _ => false
  | VArr items => forallb valid_child items
  | _ => true
  end.

Inductive panel :=
| LoadingPanel
| ErrorPanel (message : jsval)
| ListingsPanel (currentPage : Z).

Inductive view :=
| ConnectPrompt
| Chrome (dashboard : option panel)
| RenderThrows (child : jsval).

Definition Home_view (d : DashboardState) (pathname : string) : view :=
  if needsConnection d then ConnectPrompt
  else
    let isDashboard := String.eqb pathname "/home" in
    if isDashboard then
      if loadingListings d then Chrome (Some LoadingPanel)
      else if truthy (listingsError d) then
        if valid_child (listingsError d)
        then Chrome (Some (ErrorPanel (listingsError d)))
        else RenderThrows (listingsError d)
      else Chrome (Some (ListingsPanel (page d)))
    else Chrome None.

(** ** The trace as a log

    What one effect does to the storage and to the dashboard state, and
    what a run of effects does. *)
Definition apply_effect (e : effect)
    (s : gmap string string * DashboardState)
  : gmap string string * DashboardState :=
  let '(storage, d) := s in
  let '{| page := p; ebayToken := token; needsConnection := connect;
          loadingListings := loading; listingsError := error |} := d in
  match e with
  | StorageSet key value => (<[key := value]> storage, d)
  | StorageRemove key => (delete key storage, d)
  | SetEbayToken v =>
      (storage, {| page := p; ebayToken := v; needsConnection := connect;
                   loadingListings := loading; listingsError := error |})
  | SetNeedsConnection b =>
      (storage, {| page := p; ebayToken := token; needsConnection := b;
                   loadingListings := loading; listingsError := error |})
  | SetLoadingListings b =>
      (storage, {| page := p; ebayToken := token; needsConnection := connect;
                   loadingListings := b; listingsError := error |})
  | SetListingsError v =>
      (storage, {| page := p; ebayToken := token; needsConnection := connect;
                   loadingListings := loading; listingsError := v |})
  | Network _ | Reload => (storage, d)
  end.

Definition replay (run : list effect)
    (s : gmap string string * DashboardState)
  : gmap string string * DashboardState :=
  foldl (λ s e, apply_effect e s) s run.

(** A computation whose every run adds to the trace effects that all
    satisfy [P] and that account for the whole change of storage and
    dashboard state. *)
Definition logged {A} (P : effect → Prop) (m : M A) : Prop :=
  ∀ w, ∃ run,
    trace (m w).2 = trace w ++ run ∧ Forall P run ∧
    end_state (m w).2 = replay run (end_state w).

(** The effects [fetchListings] can have. *)
Definition fetch_effect (e : effect) : Prop :=
  match e with
  | Network GetActiveListings | Network (RefreshEbayUserToken _) => True
  | StorageSet key _ => key = "ebay_user_token"
  | StorageRemove key => key = "ebay_user_token" ∨ key = "ebay_refresh_token"
  | SetEbayToken _ | SetLoadingListings _ => True
  | SetNeedsConnection b => b = true
  | SetListingsError v => v = VNull ∨ truthy v = true
  | _ => False
  end.

(** The effects [handleMessage] can have. *)
Definition exchange_effect (e : effect) : Prop :=
  match e with
  | Network (ExchangeCode _ _) | SetEbayToken _ => True
  | StorageSet key _ =>
      key = "userId" ∨ key = "ebay_user_token" ∨ key = "ebay_refresh_token"
  | SetNeedsConnection b => b = false
  | _ => False
  end.

(** The effects [checkToken] can have. *)
Definition check_effect (e : effect) : Prop :=
  match e with
  | Network (GetEbayUserToken _) | SetEbayToken _ | SetNeedsConnection _ =>
      True
  | StorageSet key _ => key = "ebay_user_token"
  | _ => False
  end.

(** An effect that leaves the storage key [k] alone. *)
Definition spares_key (k : string) (e : effect) : Prop :=
  match e with
  | StorageSet key _ | StorageRemove key => key ≠ k
  | _ => True
  end.

Definition is_refresh_request (e : effect) : bool :=
  match e with
  | Network (RefreshEbayUserToken _) => true
  | _ => false
  end.

(** A token-status response that grants a token: the test of lines
    40-45. *)
Definition token_granted (resp : jsval) : bool :=
  truthy resp
  && truthy (own_prop resp "success")
  && truthy (own_prop resp "data")
  && String.eqb (typeof (own_prop (own_prop resp "data") "access_token"))
       "string".

(** An exchange that did not succeed: the call threw, answered nothing,
    or answered without a truthy [success]. *)
Definition exchange_refused (exchanged : outcome) : Prop :=
  match exchanged with
  | Reject _ => True
  | Resolve resp => nullish resp = true ∨ truthy (own_prop resp "success") = false
  end.

(** Nothing usable under [ebay_user_token]: no entry, or the empty
    string. *)
Definition no_local_token (w : world) : Prop :=
  localStorage w !! "ebay_user_token" = None
  ∨ localStorage w !! "ebay_user_token" = Some "".

(** How many times a run called the refresh endpoint. *)
Definition refresh_requests (run : list effect) : nat :=
  List.length (List.filter is_refresh_request run).

(** A computation that calls the refresh endpoint at most [n] times on
    every run. *)
Definition refreshes_at_most {A} (n : nat) (m : M A) : Prop :=
  ∀ w, ∃ run, trace (m w).2 = trace w ++ run ∧ (refresh_requests run ≤ n)%nat.

End Dashboard.

(** ** A reference browser

    A concrete [Browser] on which the handlers can be run.  The theorems
    below hold for every [Browser]; this one serves to evaluate the
    handlers on concrete stored strings.  Its JSON covers the texts the
    model's values can denote: objects, arrays, strings (escapes of
    characters up to U+00FF), integers, [true], [false] and [null].  A
    number with a fraction or an exponent, or an escape above U+00FF,
    has no [jsval] and is refused. *)
Module Reference.

Definition dquote : ascii := "034"%char.
Definition backslash : ascii := "092"%char.

(** The decimal spelling of an integer (as JavaScript prints those
    below 10^21). *)
Definition decimal (z : Z) : string :=
  DecimalString.NilZero.string_of_int (Z.to_int z).

Definition hex_digit (n : N) : ascii :=
  ascii_of_N (if (n <? 10)%N then 48 + n else 87 + n)%N.

(** One character of a JSON string literal, escaped as [JSON.stringify]
    escapes it. *)
Definition escape_char (c : ascii) : string :=
  let n := N_of_ascii c in
  if Ascii.eqb c dquote then String backslash (String dquote "")
  else if Ascii.eqb c backslash then String backslash (String backslash "")
  else if (n =? 8)%N then String backslash "b"
  else if (n =? 9)%N then String backslash "t"
  else if (n =? 10)%N then String backslash "n"
  else if (n =? 12)%N then String backslash "f"
  else if (n =? 13)%N then String backslash "r"
  else if (n <? 32)%N then
    String backslash
      (String "u" (String "0" (String "0"
         (String (hex_digit (n / 16)) (String (hex_digit (n mod 16)) "")))))
  else String c "".

Fixpoint escape (s : string) : string :=
  match s with
  | EmptyString => ""
  | String c rest => escape_char c +:+ escape rest
  end.

Definition quote (s : string) : string :=
  String dquote (escape s +:+ String dquote "").

(** [JSON.stringify(v)].  A property holding [undefined] is left out, an
    array slot holding it reads [null], and so does [NaN]. *)
Fixpoint stringify (v : jsval) : string :=
  match v with
  | VUndef => "undefined"
  | VNull => "null"
  | VBool true => "true"
  | VBool false => "false"
  | VNum (Num z) => decimal z
  | VNum NaN => "null"
  | VStr s => quote s
  | VArr items =>
      "[" +:+ String.concat ","
        ((fix each (l : list jsval) : list string :=
            match l with
            | [] => []
            | x :: rest =>
                match x with
                | VUndef => "null"
                | _ => stringify x
                end :: each rest
            end) items) +:+ "]"
  | VObj fields =>
      "{" +:+ String.concat ","
        ((fix each (l : list (string * jsval)) : list string :=
            match l with
            | [] => []
            | (k, x) :: rest =>
                match x with
                | VUndef => each rest
                | _ => (quote k +:+ ":" +:+ stringify x) :: each rest
                end
            end) fields) +:+ "}"
  end.

Definition is_ws (c : ascii) : bool :=
  let n := N_of_ascii c in
  ((n =? 32) || (n =? 9) || (n =? 10) || (n =? 13))%N.

Fixpoint skip_ws (s : string) : string :=
  match s with
  | String c rest => if is_ws c then skip_ws rest else s
  | EmptyString => s
  end.

Definition digit_of (c : ascii) : option Z :=
  let n := N_of_ascii c in
  if ((48 <=? n) && (n <=? 57))%N then Some (Z.of_N n - 48) else None.

Definition hex_of (c : ascii) : option N :=
  let n := N_of_ascii c in
  if ((48 <=? n) && (n <=? 57))%N then Some (n - 48)%N
  else if ((97 <=? n) && (n <=? 102))%N then Some (n - 87)%N
  else if ((65 <=? n) && (n <=? 70))%N then Some (n - 55)%N
  else None.

(** The digits at the head of [s], folded into [acc]. *)
Fixpoint read_digits (acc : Z) (s : string) : Z * string :=
  match s with
  | String c rest =>
      match digit_of c with
      | Some d => read_digits (10 * acc + d) rest
      | None => (acc, s)
      end
  | EmptyString => (acc, s)
  end.

Definition starts_fraction_or_exponent (s : string) : bool :=
  match s with
  | String c _ => Ascii.eqb c "." || Ascii.eqb c "e" || Ascii.eqb c "E"
  | EmptyString => false
  end.

(** An integer literal: [0], or a non-zero digit followed by digits. *)
Definition read_int (s : string) : option (Z * string) :=
  match s with
  | String c rest =>
      match digit_of c with
      | Some 0 =>
          match rest with
          | String c' _ =>
              match digit_of c' with
              | Some _ => None
              | None => Some (0, rest)
              end
          | EmptyString => Some (0, rest)
          end
      | Some d => Some (read_digits d rest)
      | None => None
      end
  | EmptyString => None
  end.

Definition read_number (s : string) : option (jsval * string) :=
  '(sign, body) ← match s with
                  | String "-" rest => Some (-1, rest)
                  | _ => Some (1, s)
                  end;
  '(n, rest) ← read_int body;
  if starts_fraction_or_exponent rest then None
  else Some (VNum (Num (sign * n)), rest).

(** The rest of a string literal after its opening quote. *)
Fixpoint read_string (s : string) : option (string * string) :=
  match s with
  | EmptyString => None
  | String c rest =>
      if Ascii.eqb c dquote then Some ("", rest)
      else if Ascii.eqb c backslash then
        match rest with
        | String e rest' =>
            let plain (c' : ascii) :=
              '(body, tail) ← read_string rest'; Some (String c' body, tail) in
            if Ascii.eqb e dquote then plain dquote
            else if Ascii.eqb e backslash then plain backslash
            else if Ascii.eqb e "/" then plain "/"%char
            else if Ascii.eqb e "b" then plain "008"%char
            else if Ascii.eqb e "t" then plain "009"%char
            else if Ascii.eqb e "n" then plain "010"%char
            else if Ascii.eqb e "f" then plain "012"%char
            else if Ascii.eqb e "r" then plain "013"%char
            else if Ascii.eqb e "u" then
              match rest' with
              | String h1 (String h2 (String h3 (String h4 rest''))) =>
                  a ← hex_of h1; b ← hex_of h2; c ← hex_of h3; d ← hex_of h4;
                  if ((a =? 0) && (b =? 0))%N then
                    '(body, tail) ← read_string rest'';
                    Some (String (ascii_of_N (16 * c + d)) body, tail)
                  else None
              | _ => None
              end
            else None
        | EmptyString => None
        end
      else if (N_of_ascii c <? 32)%N then None
      else '(body, tail) ← read_string rest; Some (String c body, tail)
  end.

Fixpoint drop_prefix (p s : string) : option string :=
  match p, s with
  | EmptyString, _ => Some s
  | String a p', String b s' => if Ascii.eqb a b then drop_prefix p' s' else None
  | _, _ => None
  end.

(** A later binding of a name replaces the earlier one. *)
Fixpoint set_field (k : string) (v : jsval) (fields : list (string * jsval))
  : list (string * jsval) :=
  match fields with
  | [] => [(k, v)]
  | (k', v') :: rest =>
      if String.eqb k' k then (k, v) :: rest else (k', v') :: set_field k v rest
  end.

Fixpoint read_value (fuel : nat) (s : string) {struct fuel}
  : option (jsval * string) :=
  match fuel with
  | O => None
  | S fuel =>
      match skip_ws s with
      | EmptyString => None
      | String c rest as s' =>
          if Ascii.eqb c dquote then
            '(str, tail) ← read_string rest; Some (VStr str, tail)
          else if Ascii.eqb c "[" then
            match skip_ws rest with
            | String "]" tail => Some (VArr [], tail)
            | _ => read_elements fuel [] rest
            end
          else if Ascii.eqb c "{" then
            match skip_ws rest with
            | String "}" tail => Some (VObj [], tail)
            | _ => read_members fuel [] rest
            end
          else if Ascii.eqb c "t" then
            tail ← drop_prefix "true" s'; Some (VBool true, tail)
          else if Ascii.eqb c "f" then
            tail ← drop_prefix "false" s'; Some (VBool false, tail)
          else if Ascii.eqb c "n" then
            tail ← drop_prefix "null" s'; Some (VNull, tail)
          else read_number s'
      end
  end
with read_elements (fuel : nat) (acc : list jsval) (s : string) {struct fuel}
  : option (jsval * string) :=
  match fuel with
  | O => None
  | S fuel =>
      '(x, tail) ← read_value fuel s;
      match skip_ws tail with
      | String "," tail' => read_elements fuel (acc ++ [x]) tail'
      | String "]" tail' => Some (VArr (acc ++ [x]), tail')
      | _ => None
      end
  end
with read_members (fuel : nat) (acc : list (string * jsval)) (s : string)
  {struct fuel} : option (jsval * string) :=
  match fuel with
  | O => None
  | S fuel =>
      match skip_ws s with
      | String c rest =>
          if Ascii.eqb c dquote then
            '(k, tail) ← read_string rest;
            match skip_ws tail with
            | String ":" tail' =>
                '(x, tail'') ← read_value fuel tail';
                match skip_ws tail'' with
                | String "," tail3 => read_members fuel (set_field k x acc) tail3
                | String "}" tail3 => Some (VObj (set_field k x acc), tail3)
                | _ => None
                end
            | _ => None
            end
          else None
      | EmptyString => None
      end
  end.

(** What may follow a number in a JSON text. *)
Definition ends_number (c : ascii) : Prop :=
  digit_of c = None ∧ starts_fraction_or_exponent (String c "") = false.

(** [JSON.parse(s)]: [None] where it throws. *)
Definition parse (s : string) : option jsval :=
  '(v, tail) ← read_value (2 * String.length s + 2) s;
  match skip_ws tail with
  | EmptyString => Some v
  | _ => None
  end.

(** [String(v)] *)
Fixpoint to_string (v : jsval) : string :=
  match v with
  | VUndef => "undefined"
  | VNull => "null"
  | VBool true => "true"
  | VBool false => "false"
  | VNum (Num z) => decimal z
  | VNum NaN => "NaN"
  | VStr s => s
  | VArr items =>
      String.concat ","
        ((fix each (l : list jsval) : list string :=
            match l with
            | [] => []
            | x :: rest =>
                match x with
                | VUndef | VNull => ""
                | _ => to_string x
                end :: each rest
            end) items)
  | VObj _ => "[object Object]"
  end.

(** [Number(s)] for a string: blank is [0] and a signed run of decimal
    digits is its value; the other spellings of a number (a fraction,
    an exponent, hexadecimal, [Infinity]) have no place in the model and
    read [NaN] like any other text. *)
Definition string_to_number (s : string) : jsnum :=
  match skip_ws s with
  | EmptyString => Num 0
  | String c rest as s' =>
      let '(sign, body) :=
        if Ascii.eqb c "-" then (-1, rest)
        else if Ascii.eqb c "+" then (1, rest)
        else (1, s') in
      match body with
      | String d _ =>
          match digit_of d, read_digits 0 body with
          | Some _, (n, tail) =>
              match skip_ws tail with
              | EmptyString => Num (sign * n)
              | _ => NaN
              end
          | None, _ => NaN
          end
      | EmptyString => NaN
      end
  end.

Definition to_number (v : jsval) : jsnum :=
  match v with
  | VStr s => string_to_number s
  | VArr _ => string_to_number (to_string v)
  | _ => NaN
  end.

#[global] Instance browser : Browser := {|
  JSON_parse := parse;
  JSON_stringify := stringify;
  ToString_builtin := to_string;
  ToNumber_builtin := to_number;
  TypeError_message base name :=
    "Cannot read properties of " +:+ to_string base
      +:+ " (reading '" +:+ name +:+ "')";
  window_location_origin := "http://localhost:5173";
|}.

End Reference.

(** ** Concrete scenarios

    The data of the scenarios of the specification, run on the reference
    browser. *)
Module Scenario.
Import Reference.

Definition alice : jsval := VObj [("id", VStr "u1")].

(** [{"value":"abc","expiry":2000000}] *)
Definition record_abc : string :=
  stringify (AccessTokenRecord (VStr "abc") (VNum (Num 2000000))).

(** A dashboard connected with token [abc]. *)
Definition connected : world :=
  {| localStorage :=
       {[ "ebay_user_token" := record_abc; "ebay_refresh_token" := "r1" ]};
     dash := {| page := 1; ebayToken := VStr "abc"; needsConnection := false;
                loadingListings := false; listingsError := VNull |};
     trace := [] |}.

(** The same record, lapsed at 1999998. *)
Definition lapsed : world :=
  {| localStorage :=
       {[ "ebay_user_token" :=
            stringify (AccessTokenRecord (VStr "abc") (VNum (Num 1999998))) ]};
     dash := initial_dashboard; trace := [] |}.

(** A mount that finds the bare token under the key. *)
Definition bare : world :=
  {| localStorage := {[ "ebay_user_token" := "abc" ]};
     dash := initial_dashboard; trace := [] |}.

(** A fresh mount with nothing stored. *)
Definition fresh : world :=
  {| localStorage := ∅; dash := initial_dashboard; trace := [] |}.

(** A fresh mount that finds the empty string under the key. *)
Definition blank : world :=
  {| localStorage := {[ "ebay_user_token" := "" ]};
     dash := initial_dashboard; trace := [] |}.

(** [{success:false, errors:[{errorId:932}]}] *)
Definition expired_listings : jsval :=
  VObj [("success", VBool false);
        ("errors", VArr [VObj [("errorId", VNum (Num 932))]])].

(** [{success:true, data:{access_token, expires_in}}] *)
Definition granted (access_token : string) (expires_in : Z) : jsval :=
  VObj [("success", VBool true);
        ("data", VObj [("access_token", VStr access_token);
                       ("expires_in", VNum (Num expires_in))])].

(** [{success:true, data:{access_token:"xyz", expires_in_seconds:3600}}] *)
Definition token_status_xyz : jsval :=
  VObj [("success", VBool true);
        ("data", VObj [("access_token", VStr "xyz");
                       ("expires_in_seconds", VNum (Num 3600))])].

Definition refused : jsval := VObj [("success", VBool false)].

Definition network_error : jsval := VObj [("message", VStr "Network Error")].

(** An HTTP client error: [{message, response:{status:401}}] *)
Definition unauthorized : jsval :=
  VObj [("message", VStr "Request failed with status code 401");
        ("response", VObj [("status", VNum (Num 401))])].

(** A response that says [success] and nothing else. *)
Definition success_only : jsval := VObj [("success", VBool true)].

(** [{success:false, error:"Rate limited"}] *)
Definition rate_limited : jsval :=
  VObj [("success", VBool false); ("error", VStr "Rate limited")].

(** [{success:false, error:{code:"E42"}}]: the error is an object. *)
Definition structured_error : jsval :=
  VObj [("success", VBool false); ("error", VObj [("code", VStr "E42")])].

(** What the OAuth popup posts: [{code:"c1", state:"s1"}] *)
Definition oauth_message : jsval :=
  VObj [("code", VStr "c1"); ("state", VStr "s1")].

(** [{success:true, data:{access_token:"tok", refresh_token:"r2"}}] *)
Definition exchanged_tok : jsval :=
  VObj [("success", VBool true);
        ("data", VObj [("access_token", VStr "tok");
                       ("refresh_token", VStr "r2")])].

(** The connected dashboard with the user id and a setting of another
    feature in storage as well. *)
Definition settled : world :=
  {| localStorage :=
       {[ "userId" := "u1"; "theme" := "dark";
          "ebay_user_token" := record_abc; "ebay_refresh_token" := "r1" ]};
     dash := {| page := 1; ebayToken := VStr "abc"; needsConnection := false;
                loadingListings := false; listingsError := VNull |};
     trace := [] |}.

End Scenario.

(** * Properties *)

Section Properties.
Context `{Browser}.

Ltac unfold_monad :=
  unfold mbind, M_bind, mret, M_ret, try_catch, try_finally, throw, get,
    await, setItem, removeItem, getItem, reload, setEbayToken,
    setNeedsConnection, setLoadingListings, setListingsError, update_dash,
    emit in *.

(** ** The OAuth message handler *)

(** C5: a message whose origin is not the page's own origin leaves the
    world exactly as it was: no storage write, no state change, no
    request, nothing thrown. *)
Theorem handleMessage_foreign_origin
    (user : jsval) (event_origin : string) (event_data : jsval)
    (exchanged : outcome) (now : Z) (w : world) :
  event_origin ≠ window_location_origin →
  handleMessage user event_origin event_data exchanged now w = (Normal (), w).
Proof.
  intros Hneq. unfold handleMessage.
  destruct (String.eqb event_origin window_location_origin) eqn:E.
  - apply String.eqb_eq in E. contradiction.
  - reflexivity.
Qed.

(** ** The hard reset *)

(** C9: the [authenticationFailed] handler removes the five keys, in
    source order, and only then reloads; none of them is left in
    storage. *)
Theorem handleAuthFailure_purges (w : world) :
  let '(c, w') := handleAuthFailure w in
  c = Normal () ∧
  trace w' = trace w ++ (StorageRemove <$> purged_keys) ++ [Reload] ∧
  Forall (λ k, localStorage w' !! k = None) purged_keys ∧
  dash w' = dash w.
Proof.
  destruct w as [storage d tr].
  unfold handleAuthFailure. unfold_monad. cbn.
  repeat split.
  - rewrite <- !app_assoc. reflexivity.
  - unfold purged_keys.
    repeat (apply Forall_cons; split); [ .. | done ];
      repeat first [ apply lookup_delete_eq
                   | rewrite lookup_delete_ne by discriminate ].
Qed.

(** ** The token validator *)

Lemma truthy_VStr (s : string) : truthy (VStr s) = true ↔ s ≠ "".
Proof.
  cbn. destruct (String.eqb_spec s ""); cbn; split; congruence.
Qed.

(** A valid stored record is answered from storage, and nothing else
    happens. *)
Lemma getValidAuthToken_local
    (userId value : jsval) (e now : Z) (resp : outcome) (now_store : Z)
    (w : world) :
  stored_record w value (VNum (Num e)) → now < e → truthy value = true →
  getValidAuthToken userId now resp now_store w = (Normal value, w).
Proof.
  intros (raw & fields & Hraw & Hne & Hparse & Hv & He) Hlt Hval.
  destruct w as [storage d tr]. cbn in Hraw.
  unfold getValidAuthToken, stored_token. unfold_monad.
  rewrite Hraw. apply truthy_VStr in Hne. rewrite Hne. cbn.
  rewrite Hparse. cbn. rewrite Hv, He, Hval. cbn.
  apply Z.ltb_lt in Hlt. rewrite Hlt. reflexivity.
Qed.

(** Without a valid stored record the validator is its remote step. *)
Lemma getValidAuthToken_remote
    (userId : jsval) (now : Z) (resp : outcome) (now_store : Z) (w : world) :
  ¬ local_record_valid w now →
  getValidAuthToken userId now resp now_store w
  = remote_token userId resp now_store w.
Proof.
  intros Hinv. unfold getValidAuthToken, stored_token.
  unfold mbind at 1 2. unfold M_bind, getItem.
  destruct w as [storage d tr]. unfold_monad.
  destruct (storage !! "ebay_user_token") as [raw|] eqn:Hraw;
    [ | reflexivity ].
  destruct (truthy (VStr raw)) eqn:Hne; [ | reflexivity ].
  apply truthy_VStr in Hne. cbn.
  destruct (JSON_parse raw) as [parsed|] eqn:Hparse; [ | reflexivity ].
  destruct parsed as [ | | b | n | s | items | fields ]; try reflexivity.
  cbn. destruct (lookup_field "expiry" fields) as [ | | b | [e|] | s | l | l ]
    eqn:He; try reflexivity.
  cbn. destruct (now <? e) eqn:Hlt; [ | reflexivity ].
  destruct (truthy (lookup_field "value" fields)) eqn:Hval; [ | reflexivity ].
  exfalso. apply Hinv. exists (lookup_field "value" fields), e.
  apply Z.ltb_lt in Hlt. repeat split; try done.
  exists raw, fields. by repeat split.
Qed.

(** The remote step after a failed call: the request is the only effect
    and the answer is [null]. *)
Lemma remote_token_failed
    (userId : jsval) (resp : outcome) (now : Z) (w : world) :
  remote_failed resp →
  remote_token userId resp now w
  = (Normal VNull, emit (Network (GetEbayUserToken userId)) w).
Proof.
  intros Hfail. destruct w as [storage d tr].
  unfold remote_token. unfold_monad.
  destruct Hfail as [e | r Hr | r Hr]; cbn; [ reflexivity | | ].
  - rewrite Hr. by rewrite !andb_false_r.
  - destruct (String.eqb_spec
                (typeof (own_prop (own_prop r "data") "access_token"))
                "string") as [Heq | _]; [ contradiction | ].
    by rewrite !andb_false_r.
Qed.

(** The remote step always makes the request first. *)
Lemma remote_token_requests
    (userId : jsval) (resp : outcome) (now : Z) (w : world) :
  ∃ rest, trace (remote_token userId resp now w).2
          = trace w ++ Network (GetEbayUserToken userId) :: rest.
Proof.
  destruct w as [storage d tr]. unfold remote_token. unfold_monad.
  destruct resp as [r | e]; cbn; [ | by exists [] ].
  match goal with |- context [if ?c then _ else _] => destruct c end;
    cbn; [ | by exists [] ].
  eexists. rewrite <- app_assoc. reflexivity.
Qed.

(** Three ways of having no valid local record. *)
Lemma no_record_invalid (w : world) (now : Z) :
  localStorage w !! "ebay_user_token" = None → ¬ local_record_valid w now.
Proof.
  intros Hnone (v & e & (raw & fields & Hraw & _) & _). congruence.
Qed.

Lemma malformed_record_invalid (w : world) (raw : string) (now : Z) :
  localStorage w !! "ebay_user_token" = Some raw → JSON_parse raw = None →
  ¬ local_record_valid w now.
Proof.
  intros Hraw Hbad (v & e & (raw' & fields & Hraw' & _ & Hparse & _) & _).
  congruence.
Qed.

Lemma expired_record_invalid (w : world) (value : jsval) (expiry now : Z) :
  stored_record w value (VNum (Num expiry)) → expiry ≤ now →
  ¬ local_record_valid w now.
Proof.
  intros (raw & fields & Hraw & _ & Hparse & _ & He) Hle
         (v & e & (raw' & fields' & Hraw' & _ & Hparse' & _ & He') & Hlt & _).
  rewrite Hraw in Hraw'. injection Hraw' as <-.
  rewrite Hparse in Hparse'. injection Hparse' as <-.
  rewrite He in He'. injection He' as <-. lia.
Qed.

(** C6: with a stored record whose value is a non-empty string and whose
    expiry is ahead of the clock, [getValidAuthToken] returns that value
    and leaves the world, trace included, untouched; a second call under
    the same unexpired record does the same, so neither call reaches the
    network. *)
Theorem getValidAuthToken_local_first
    (userId : jsval) (value : string) (expiry : Z)
    (now1 now2 : Z) (resp1 resp2 : outcome) (store1 store2 : Z) (w : world) :
  stored_record w (VStr value) (VNum (Num expiry)) →
  value ≠ "" → now1 < expiry → now2 < expiry →
  let '(first, w1) := getValidAuthToken userId now1 resp1 store1 w in
  let '(second, w2) := getValidAuthToken userId now2 resp2 store2 w1 in
  first = Normal (VStr value) ∧ second = Normal (VStr value) ∧
  w1 = w ∧ w2 = w ∧ trace w2 = trace w.
Proof.
  intros Hrec Hval H1 H2. apply truthy_VStr in Hval.
  rewrite (getValidAuthToken_local _ _ _ _ _ _ _ Hrec H1 Hval).
  rewrite (getValidAuthToken_local _ _ _ _ _ _ _ Hrec H2 Hval).
  done.
Qed.

(** C7: the validity test is the strict [now < expiry].  For a stored
    record whose value is a non-empty string and whose expiry is a
    number, at every reading [now] of the clock: when [now < expiry] (so
    for [expiry = now + 1]) the record is used, its value is returned and
    nothing else happens; when [expiry <= now] (so for [expiry = now]
    itself and for [expiry = now - 1]) the record is not used, the
    validator is then its remote step and the token-status request goes
    out. *)
Theorem getValidAuthToken_expiry_boundary
    (userId : jsval) (value : string) (expiry : Z) (w : world) :
  value ≠ "" →
  stored_record w (VStr value) (VNum (Num expiry)) →
  ∀ (now : Z) (resp : outcome) (now_store : Z),
    (now < expiry →
     getValidAuthToken userId now resp now_store w = (Normal (VStr value), w)) ∧
    (expiry ≤ now →
     getValidAuthToken userId now resp now_store w
     = remote_token userId resp now_store w ∧
     ∃ rest, trace (getValidAuthToken userId now resp now_store w).2
             = trace w ++ Network (GetEbayUserToken userId) :: rest).
Proof.
  intros Hval Hrec now resp now_store. split.
  - intros Hlt. apply truthy_VStr in Hval.
    by apply (getValidAuthToken_local _ _ expiry).
  - intros Hle.
    assert (Hinv : ¬ local_record_valid w now)
      by apply (expired_record_invalid _ _ _ _ Hrec Hle).
    rewrite (getValidAuthToken_remote _ _ _ _ _ Hinv).
    split; [ reflexivity | apply remote_token_requests ].
Qed.

(** C8: without a valid local record (none stored, a malformed one, an
    expired one), a token-status call that rejects, is unsuccessful or
    carries no token makes [getValidAuthToken] complete normally with
    [null]; it throws nothing, and the request is its only effect. *)
Theorem getValidAuthToken_fails_closed
    (userId : jsval) (now : Z) (resp : outcome) (now_store : Z) (w : world) :
  ¬ local_record_valid w now → remote_failed resp →
  getValidAuthToken userId now resp now_store w
  = (Normal VNull, emit (Network (GetEbayUserToken userId)) w).
Proof.
  intros Hinv Hfail.
  rewrite (getValidAuthToken_remote _ _ _ _ _ Hinv).
  by apply remote_token_failed.
Qed.

(** ** The listings fetch *)

Lemma token_expired_not_nullish (data : jsval) :
  token_expired_932 data → nullish data = false.
Proof.
  intros [_ H932]. by destruct data.
Qed.

Lemma refresh_granted_not_nullish (r : jsval) :
  refresh_granted r = true →
  nullish r = false ∧ nullish (own_prop r "data") = false.
Proof.
  unfold refresh_granted. intros Hg. apply andb_true_iff in Hg as [Hs Ha].
  split; [ by destruct r | by destruct (own_prop r "data") ].
Qed.

Lemma refresh_granted_token (r : jsval) :
  refresh_granted r = true →
  truthy (own_prop (own_prop r "data") "access_token") = true.
Proof.
  unfold refresh_granted, get_opt. intros Hg.
  apply andb_true_iff in Hg as [_ Ha].
  by destruct (nullish (own_prop r "data")).
Qed.

Lemma carries_401_not_nullish (err : jsval) :
  carries_401 err = true → nullish err = false.
Proof.
  by destruct err.
Qed.

(** The 932 path with a granted refresh: the run, effect by effect. *)
Lemma fetchListings_refreshed
    (user data refreshed : jsval) (now : Z) (w : world) :
  signed_in user → token_expired_932 data → refresh_granted refreshed = true →
  let access_token := own_prop (own_prop refreshed "data") "access_token" in
  let expires :=
    js_or (own_prop (own_prop refreshed "data") "expires_in")
          (VNum (Num 7200)) in
  let record :=
    JSON_stringify
      (AccessTokenRecord access_token
         (VNum (num_add (Num now) (num_mul (ToNumber expires) (Num 1000))))) in
  fetchListings user (Resolve data) (Resolve refreshed) now w
  = (Normal (),
     {| localStorage := <["ebay_user_token" := record]> (localStorage w);
        dash := {| page := page (dash w); ebayToken := access_token;
                   needsConnection := needsConnection (dash w);
                   loadingListings := false; listingsError := VNull |};
        trace := trace w ++
          [SetLoadingListings true; SetListingsError VNull;
           Network GetActiveListings;
           Network (RefreshEbayUserToken (own_prop user "id"));
           StorageSet "ebay_user_token" record;
           SetEbayToken access_token; SetLoadingListings false] |}).
Proof.
  intros Hu Hd Hr. pose proof (token_expired_not_nullish _ Hd) as Hn.
  destruct (refresh_granted_not_nullish _ Hr) as [Hrn Hdn].
  destruct Hd as [Hs H932]. unfold signed_in in Hu.
  unfold refresh_granted in Hr.
  destruct w as [storage [p tok connect loading error] tr].
  unfold fetchListings. unfold_monad. cbn.
  rewrite Hn. cbn. rewrite Hs. cbn. rewrite H932, Hu. cbn.
  rewrite Hr, Hrn. cbn. rewrite Hdn. cbn.
  rewrite <- !app_assoc. reflexivity.
Qed.

Lemma torn_down_world_spec (w : world) (run : list effect) :
  torn_down (torn_down_world w run).
Proof.
  unfold torn_down, torn_down_world. cbn. repeat split.
  - rewrite lookup_delete_ne by discriminate. apply lookup_delete_eq.
  - apply lookup_delete_eq.
Qed.

(** The 932 path with a refresh response that grants nothing. *)
Lemma fetchListings_refresh_refused
    (user data refreshed : jsval) (now : Z) (w : world) :
  signed_in user → token_expired_932 data → refresh_granted refreshed = false →
  fetchListings user (Resolve data) (Resolve refreshed) now w
  = (Normal (),
     torn_down_world w
       [SetLoadingListings true; SetListingsError VNull;
        Network GetActiveListings;
        Network (RefreshEbayUserToken (own_prop user "id"));
        StorageRemove "ebay_user_token"; StorageRemove "ebay_refresh_token";
        SetEbayToken VNull; SetNeedsConnection true;
        SetLoadingListings false]).
Proof.
  intros Hu Hd Hr. pose proof (token_expired_not_nullish _ Hd) as Hn.
  destruct Hd as [Hs H932]. unfold signed_in in Hu.
  unfold refresh_granted in Hr.
  destruct w as [storage [p tok connect loading error] tr].
  unfold fetchListings, clear_tokens_and_show_connect, torn_down_world.
  unfold_monad. cbn.
  rewrite Hn. cbn. rewrite Hs. cbn. rewrite H932, Hu. cbn.
  rewrite Hr. cbn. rewrite <- !app_assoc. reflexivity.
Qed.

(** The 932 path with a refresh that rejects with a 401. *)
Lemma fetchListings_refresh_401
    (user data err : jsval) (now : Z) (w : world) :
  signed_in user → token_expired_932 data → carries_401 err = true →
  fetchListings user (Resolve data) (Reject err) now w
  = (Normal (),
     torn_down_world w
       [SetLoadingListings true; SetListingsError VNull;
        Network GetActiveListings;
        Network (RefreshEbayUserToken (own_prop user "id"));
        StorageRemove "ebay_user_token"; StorageRemove "ebay_refresh_token";
        SetEbayToken VNull; SetNeedsConnection true; SetListingsError VNull;
        SetLoadingListings false]).
Proof.
  intros Hu Hd He. pose proof (token_expired_not_nullish _ Hd) as Hn.
  pose proof (carries_401_not_nullish _ He) as Hen.
  destruct Hd as [Hs H932]. unfold signed_in in Hu. unfold carries_401 in He.
  destruct w as [storage [p tok connect loading error] tr].
  unfold fetchListings, clear_tokens_and_show_connect, torn_down_world.
  unfold_monad. cbn.
  rewrite Hn. cbn. rewrite Hs. cbn. rewrite H932, Hu. cbn.
  rewrite Hen. cbn. rewrite He. cbn. rewrite <- !app_assoc. reflexivity.
Qed.

(** A listings call that rejects with a 401. *)
Lemma fetchListings_unauthorized
    (user err : jsval) (refresh : outcome) (now : Z) (w : world) :
  carries_401 err = true →
  fetchListings user (Reject err) refresh now w
  = (Normal (),
     torn_down_world w
       [SetLoadingListings true; SetListingsError VNull;
        Network GetActiveListings;
        StorageRemove "ebay_user_token"; StorageRemove "ebay_refresh_token";
        SetEbayToken VNull; SetNeedsConnection true; SetListingsError VNull;
        SetLoadingListings false]).
Proof.
  intros He. pose proof (carries_401_not_nullish _ He) as Hen.
  unfold carries_401 in He.
  destruct w as [storage [p tok connect loading error] tr].
  unfold fetchListings, clear_tokens_and_show_connect, torn_down_world.
  unfold_monad. cbn.
  rewrite Hen. cbn. rewrite He. cbn. rewrite <- !app_assoc. reflexivity.
Qed.

(** *** Counting listings requests *)

Lemma listings_requests_app (a b : list effect) :
  listings_requests (a ++ b) = (listings_requests a + listings_requests b)%nat.
Proof.
  unfold listings_requests. by rewrite List.filter_app, length_app.
Qed.

Lemma effects_of_run {A} (m : M A) (w : world) (run : list effect) :
  trace (m w).2 = trace w ++ run → effects_of m w = run.
Proof.
  unfold effects_of. intros ->. by rewrite drop_app_length.
Qed.

Lemma requests_ret {A} (a : A) : requests_listings 0 (mret a).
Proof. intros w. exists []. by rewrite app_nil_r. Qed.

Lemma requests_throw {A} (e : jsval) : requests_listings 0 (@throw A e).
Proof. intros w. exists []. by rewrite app_nil_r. Qed.

Lemma requests_bind {A B} (n : nat) (m : M A) (f : A → M B) :
  requests_listings n m → (∀ a, requests_listings 0 (f a)) →
  requests_listings n (m ≫= f).
Proof.
  intros Hm Hf w. destruct (Hm w) as (run & Ht & Hn).
  unfold mbind, M_bind. destruct (m w) as [[a | e] w1]; cbn in *.
  - destruct (Hf a w1) as (run' & Ht' & Hn'). exists (run ++ run').
    rewrite Ht', Ht, app_assoc, listings_requests_app. split; [ done | lia ].
  - by exists run.
Qed.

Lemma requests_try_catch {A} (n : nat) (body : M A) (handler : jsval → M A) :
  requests_listings n body → (∀ e, requests_listings 0 (handler e)) →
  requests_listings n (try_catch body handler).
Proof.
  intros Hm Hh w. destruct (Hm w) as (run & Ht & Hn).
  unfold try_catch. destruct (body w) as [[a | e] w1]; cbn in *.
  - by exists run.
  - destruct (Hh e w1) as (run' & Ht' & Hn'). exists (run ++ run').
    rewrite Ht', Ht, app_assoc, listings_requests_app. split; [ done | lia ].
Qed.

Lemma requests_try_finally {A} (n : nat) (body : M A) (cleanup : M ()) :
  requests_listings n body → requests_listings 0 cleanup →
  requests_listings n (try_finally body cleanup).
Proof.
  intros Hm Hc w. destruct (Hm w) as (run & Ht & Hn).
  unfold try_finally. destruct (body w) as [c w1]; cbn in *.
  destruct (Hc w1) as (run' & Ht' & Hn').
  exists (run ++ run').
  destruct (cleanup w1) as [[[] | e] w2]; cbn in *;
    rewrite Ht', Ht, app_assoc, listings_requests_app; (split; [ done | lia ]).
Qed.

Lemma requests_get (v : jsval) (name : string) :
  requests_listings 0 (get v name).
Proof.
  unfold get. destruct (nullish v); [ apply requests_throw | apply requests_ret ].
Qed.

Lemma requests_await_listings (o : outcome) :
  requests_listings 1 (await GetActiveListings o).
Proof.
  intros [storage d tr]. exists [Network GetActiveListings]. by destruct o.
Qed.

Lemma requests_await_refresh (userId : jsval) (o : outcome) :
  requests_listings 0 (await (RefreshEbayUserToken userId) o).
Proof.
  intros [storage d tr]. exists [Network (RefreshEbayUserToken userId)].
  by destruct o.
Qed.

Lemma requests_setItem (key : string) (v : jsval) :
  requests_listings 0 (setItem key v).
Proof. intros [storage d tr]. by eexists [_]. Qed.

Lemma requests_removeItem (key : string) :
  requests_listings 0 (removeItem key).
Proof. intros [storage d tr]. by eexists [_]. Qed.

Lemma requests_update_dash (f : DashboardState → DashboardState) (e : effect) :
  is_listings_request e = false → requests_listings 0 (update_dash f e).
Proof.
  intros He [storage d tr]. exists [e]. split; [ done | ].
  unfold listings_requests. cbn. by rewrite He.
Qed.

Ltac quiet :=
  repeat first
    [ apply requests_ret | apply requests_throw | apply requests_get
    | apply requests_await_refresh | apply requests_setItem
    | apply requests_removeItem
    | apply requests_update_dash; reflexivity
    | apply requests_bind; [ | intros ? ]
    | match goal with
      | |- requests_listings _ (if ?c then _ else _) => destruct c
      end ].

(** No run of [fetchListings] calls itself: whatever the two promises
    do and whoever the user is, the listings are requested once. *)
Lemma fetchListings_requests_once
    (user : jsval) (listings refresh : outcome) (now : Z) :
  requests_listings 1 (fetchListings user listings refresh now).
Proof.
  unfold fetchListings.
  assert (Hbind0 : ∀ (m : M ()) (k : M ()),
             (∀ w, ∃ w', m w = (Normal (), w') ∧ ∃ run,
                 trace w' = trace w ++ run ∧ listings_requests run = 0%nat) →
             requests_listings 1 k → requests_listings 1 (m ;; k)).
  { intros m k Hm Hk w. destruct (Hm w) as (w1 & Hw1 & run & Ht & Hn).
    unfold mbind, M_bind. rewrite Hw1.
    destruct (Hk w1) as (run' & Ht' & Hn'). exists (run ++ run').
    rewrite Ht', Ht, app_assoc, listings_requests_app. split; [ done | lia ]. }
  apply Hbind0;
    [ intros [storage d tr]; eexists; split;
      [ reflexivity | by eexists [_] ] | ].
  apply Hbind0;
    [ intros [storage d tr]; eexists; split;
      [ reflexivity | by eexists [_] ] | ].
  apply requests_try_finally; [ | unfold setLoadingListings; quiet ].
  apply requests_try_catch.
  - apply requests_bind; [ apply requests_await_listings | intros data ].
    unfold clear_tokens_and_show_connect, setEbayToken, setNeedsConnection,
      setListingsError. quiet.
  - intros err.
    unfold clear_tokens_and_show_connect, setEbayToken, setNeedsConnection,
      setListingsError. quiet.
Qed.

(** C2 (amended): when the listings response is the coded 932 failure
    and the refresh response grants an access token that is not the
    token already held, the run persists the record
    [{ value: access_token, expiry: now + (expires_in || 7200) * 1000 }]
    as one [setItem], sets [ebayToken] to the new token, requests the
    listings once itself (no recursive call), and makes React run the
    listings effect again; that run, now holding the new token, requests
    the listings exactly once however its own promises settle. *)
Theorem refresh_then_retry
    (user token data refreshed : jsval) (now : Z) (w : world) :
  signed_in user → truthy token = true →
  token_expired_932 data → refresh_granted refreshed = true →
  let access_token := own_prop (own_prop refreshed "data") "access_token" in
  let expires :=
    js_or (own_prop (own_prop refreshed "data") "expires_in")
          (VNum (Num 7200)) in
  let record :=
    JSON_stringify
      (AccessTokenRecord access_token
         (VNum (num_add (Num now) (num_mul (ToNumber expires) (Num 1000))))) in
  let run :=
    [SetLoadingListings true; SetListingsError VNull;
     Network GetActiveListings;
     Network (RefreshEbayUserToken (own_prop user "id"));
     StorageSet "ebay_user_token" record;
     SetEbayToken access_token; SetLoadingListings false] in
  Object_is token access_token = false →
  let '(c, w') :=
    listings_effect user token (Resolve data) (Resolve refreshed) now w in
  c = Normal () ∧
  trace w' = trace w ++ run ∧
  localStorage w' = <["ebay_user_token" := record]> (localStorage w) ∧
  ebayToken (dash w') = access_token ∧
  listings_requests run = 1%nat ∧
  listings_effect_reruns token run = true ∧
  ∀ (listings' refresh' : outcome) (now' : Z),
    listings_requests
      (effects_of (listings_effect user access_token listings' refresh' now') w')
    = 1%nat.
Proof.
  intros Hu Htok Hd Hr access_token expires record run Hnew.
  unfold listings_effect at 1. rewrite Htok. cbn [negb].
  rewrite (fetchListings_refreshed _ _ _ _ _ Hu Hd Hr).
  fold access_token expires record run.
  repeat split.
  - unfold listings_effect_reruns, run. cbn. by rewrite Hnew.
  - intros listings' refresh' now'.
    pose proof (refresh_granted_token _ Hr) as Hat. fold access_token in Hat.
    unfold listings_effect. rewrite Hat. cbn [negb].
    match goal with |- context [effects_of ?m ?w0] =>
      destruct (fetchListings_requests_once user listings' refresh' now' w0)
        as (run' & Ht & Hn);
      by rewrite (effects_of_run m w0 run' Ht)
    end.
Qed.

(** A granted lifetime that is a non-zero number is used as it is. *)
Lemma refreshed_lifetime_number (expires_in : Z) :
  expires_in ≠ 0 →
  num_mul (ToNumber (js_or (VNum (Num expires_in)) (VNum (Num 7200))))
          (Num 1000)
  = Num (expires_in * 1000).
Proof.
  intros Hnz. unfold js_or. cbn.
  destruct (Z.eqb_spec expires_in 0); [ contradiction | reflexivity ].
Qed.

(** A granted token that is the one already held changes no effect
    dependency, so the effect is not run again. *)
Lemma same_token_no_rerun (token : string) (before after : list effect) :
  last_token_set after = None →
  listings_effect_reruns (VStr token)
    (before ++ SetEbayToken (VStr token) :: after) = false.
Proof.
  intros Hafter. unfold listings_effect_reruns.
  assert (Hlast : last_token_set (before ++ SetEbayToken (VStr token) :: after)
                  = Some (VStr token)).
  { induction before as [ | e before IH ]; cbn.
    - by rewrite Hafter.
    - by rewrite IH. }
  rewrite Hlast. cbn. by rewrite String.eqb_refl.
Qed.

(** C3 (amended): after the coded 932 failure, a refresh that resolves
    without granting a token, or that rejects with a 401, ends in the
    teardown whatever the world was before: both token keys removed,
    [ebayToken] null, [needsConnection] true, no error message, and
    loading switched off. *)
Theorem refresh_failure_teardown
    (user data : jsval) (refresh : outcome) (now : Z) (w : world) :
  signed_in user → token_expired_932 data → refresh_denied refresh →
  let '(c, w') := fetchListings user (Resolve data) refresh now w in
  c = Normal () ∧ torn_down w' ∧ loadingListings (dash w') = false.
Proof.
  intros Hu Hd [r Hr | e He].
  - rewrite (fetchListings_refresh_refused _ _ _ _ _ Hu Hd Hr).
    split; [ done | ]. split; [ apply torn_down_world_spec | done ].
  - rewrite (fetchListings_refresh_401 _ _ _ _ _ Hu Hd He).
    split; [ done | ]. split; [ apply torn_down_world_spec | done ].
Qed.

(** C4: a listings call that throws an error carrying status 401 ends
    in the teardown, whoever the user is, signed in or not: both token
    keys are removed, [ebayToken] is [null], [needsConnection] is true,
    and [listingsError] is set to [null] once more after the tokens are
    cleared.  Storage and dashboard are then exactly those the coded
    refresh-failure teardown leaves from the same world, wherever that
    teardown happens (a signed-in user, the coded 932 failure and a
    refresh that is denied). *)
Theorem unauthorized_teardown
    (user err : jsval) (refresh : outcome) (now : Z) (w : world) :
  carries_401 err = true →
  let '(c, w') := fetchListings user (Reject err) refresh now w in
  c = Normal () ∧ torn_down w' ∧
  trace w' = trace w ++
    [SetLoadingListings true; SetListingsError VNull;
     Network GetActiveListings;
     StorageRemove "ebay_user_token"; StorageRemove "ebay_refresh_token";
     SetEbayToken VNull; SetNeedsConnection true; SetListingsError VNull;
     SetLoadingListings false] ∧
  ∀ (data : jsval) (refresh' : outcome) (now' : Z),
    signed_in user → token_expired_932 data → refresh_denied refresh' →
    end_state w'
    = end_state (fetchListings user (Resolve data) refresh' now' w).2.
Proof.
  intros He.
  rewrite (fetchListings_unauthorized _ _ _ _ _ He).
  split; [ done | ]. split; [ apply torn_down_world_spec | ].
  split; [ done | ].
  intros data refresh' now' Hu Hd [r Hr | e He'].
  - by rewrite (fetchListings_refresh_refused _ _ _ _ _ Hu Hd Hr).
  - by rewrite (fetchListings_refresh_401 _ _ _ _ _ Hu Hd He').
Qed.

(** ** The mount-time token check *)

Lemma stored_token_pure (raw : jsval) (now : Z) (w : world) :
  ∃ o, stored_token raw now w = (Normal o, w).
Proof.
  unfold stored_token. unfold_monad.
  destruct (truthy raw); [ | by eexists ].
  destruct (JSON_parse (ToString raw)) as [parsed|]; [ | by eexists ].
  destruct (nullish parsed); [ by eexists | ]. cbn.
  match goal with |- context [if ?c then _ else _] => destruct c end;
    by eexists.
Qed.

(** The validator never throws, never touches the dashboard state and
    only adds to the trace. *)
Lemma getValidAuthToken_total
    (userId : jsval) (now : Z) (resp : outcome) (now_store : Z) (w : world) :
  ∃ token w' run,
    getValidAuthToken userId now resp now_store w = (Normal token, w') ∧
    dash w' = dash w ∧ trace w' = trace w ++ run.
Proof.
  destruct w as [storage d tr].
  unfold getValidAuthToken. unfold mbind at 1 2. unfold M_bind, getItem.
  match goal with |- context [stored_token ?r ?n ?w0] =>
    destruct (stored_token_pure r n w0) as (o & ->)
  end.
  destruct o as [value|].
  { exists value, {| localStorage := storage; dash := d; trace := tr |}, [].
    cbn. by rewrite app_nil_r. }
  unfold remote_token. unfold_monad.
  destruct resp as [r | e]; cbn; [ | by eexists _, _, [_] ].
  match goal with |- context [if ?c then _ else _] => destruct c end;
    cbn; [ | by eexists _, _, [_] ].
  eexists _, _, [_; _]. cbn. by rewrite <- app_assoc.
Qed.

Lemma stored_record_shown (raw : string) (w : world) (value expiry : jsval) :
  stored_record w value expiry →
  stored_record (local_token_shown raw w) value expiry.
Proof. by intros Hrec. Qed.

Lemma truthy_id_user (user : jsval) :
  truthy (own_prop user "id") = true → truthy user = true ∧ nullish user = false.
Proof. by destruct user. Qed.

(** C10 (amended): for a signed-in user and a non-empty string stored
    under [ebay_user_token], be it expired or malformed, [checkToken]
    first sets [ebayToken] to that raw string and [needsConnection] to
    false; whatever the validator then does, [needsConnection] is still
    false at the end, and [ebayToken] is still the raw string unless the
    validator returned a token. *)
Theorem checkToken_shows_local_token
    (user : jsval) (raw : string) (now : Z) (resp : outcome) (now_store : Z)
    (w : world) :
  truthy (own_prop user "id") = true →
  localStorage w !! "ebay_user_token" = Some raw → raw ≠ "" →
  let validated :=
    (getValidAuthToken (own_prop user "id") now resp now_store
       (local_token_shown raw w)).1 in
  let '(c, w') := checkToken user now resp now_store w in
  c = Normal () ∧
  (∃ rest, trace w' = trace w ++
             SetEbayToken (VStr raw) :: SetNeedsConnection false :: rest) ∧
  needsConnection (dash w') = false ∧
  ebayToken (dash w')
  = match validated with
    | Normal token => if truthy token then token else VStr raw
    | Throw _ => VStr raw
    end.
Proof.
  intros Hid Hraw Hne. destruct (truthy_id_user _ Hid) as [Hu Hnu].
  apply truthy_VStr in Hne. cbn zeta.
  destruct (getValidAuthToken_total (own_prop user "id") now resp now_store
              (local_token_shown raw w)) as (token & w2 & run & Hrun & Hd & Ht).
  rewrite Hrun. cbn [fst].
  destruct w as [storage [p tok connect loading error] tr]. cbn in Hraw.
  unfold local_token_shown in *. cbn [localStorage dash trace page
    loadingListings listingsError] in *.
  unfold checkToken. rewrite Hu, Hid. cbn [negb orb].
  unfold mbind at 1 2 3. unfold M_bind, getItem. rewrite Hraw, Hne.
  unfold mbind at 1. unfold M_bind. unfold setEbayToken at 1.
  unfold update_dash at 1. unfold setNeedsConnection at 1.
  unfold update_dash at 1.
  rewrite <- app_assoc. cbn [app].
  unfold try_catch, get. rewrite Hnu. unfold mbind at 1 2, mret at 1.
  unfold M_bind, M_ret. rewrite Hrun.
  destruct w2 as [storage2 d2 tr2]. cbn in Hd, Ht. subst d2 tr2.
  rewrite <- app_assoc. cbn [app].
  destruct (truthy token) eqn:Htok.
  - unfold_monad. cbn. repeat split.
    rewrite <- !app_assoc. cbn. eauto.
  - cbn. repeat split. eauto.
Qed.

(** *** The other writers of the token key

    [getValidAuthToken], [handleMessage] and [fetchListings] store under
    [ebay_user_token] nothing but the JSON text of a record. *)

Lemma only_emits_ret {A} (P : effect → Prop) (a : A) : only_emits P (mret a).
Proof. intros w. exists []. by rewrite app_nil_r. Qed.

Lemma only_emits_throw {A} (P : effect → Prop) (e : jsval) :
  only_emits P (@throw A e).
Proof. intros w. exists []. by rewrite app_nil_r. Qed.

Lemma only_emits_bind {A B} (P : effect → Prop) (m : M A) (f : A → M B) :
  only_emits P m → (∀ a, only_emits P (f a)) → only_emits P (m ≫= f).
Proof.
  intros Hm Hf w. destruct (Hm w) as (run & Ht & HP).
  unfold mbind, M_bind. destruct (m w) as [[a | e] w1]; cbn in *.
  - destruct (Hf a w1) as (run' & Ht' & HP'). exists (run ++ run').
    rewrite Ht', Ht, app_assoc. split; [ done | by apply Forall_app ].
  - by exists run.
Qed.

Lemma only_emits_try_catch {A} (P : effect → Prop)
    (body : M A) (handler : jsval → M A) :
  only_emits P body → (∀ e, only_emits P (handler e)) →
  only_emits P (try_catch body handler).
Proof.
  intros Hm Hh w. destruct (Hm w) as (run & Ht & HP).
  unfold try_catch. destruct (body w) as [[a | e] w1]; cbn in *.
  - by exists run.
  - destruct (Hh e w1) as (run' & Ht' & HP'). exists (run ++ run').
    rewrite Ht', Ht, app_assoc. split; [ done | by apply Forall_app ].
Qed.

Lemma only_emits_try_finally {A} (P : effect → Prop)
    (body : M A) (cleanup : M ()) :
  only_emits P body → only_emits P cleanup →
  only_emits P (try_finally body cleanup).
Proof.
  intros Hm Hc w. destruct (Hm w) as (run & Ht & HP).
  unfold try_finally. destruct (body w) as [c w1]; cbn in *.
  destruct (Hc w1) as (run' & Ht' & HP'). exists (run ++ run').
  destruct (cleanup w1) as [[[] | e] w2]; cbn in *;
    rewrite Ht', Ht, app_assoc; (split; [ done | by apply Forall_app ]).
Qed.

Lemma only_emits_get (P : effect → Prop) (v : jsval) (name : string) :
  only_emits P (get v name).
Proof.
  unfold get.
  destruct (nullish v); [ apply only_emits_throw | apply only_emits_ret ].
Qed.

Lemma only_emits_getItem (P : effect → Prop) (key : string) :
  only_emits P (getItem key).
Proof. intros [storage d tr]. exists []. by rewrite app_nil_r. Qed.

Lemma only_emits_await (P : effect → Prop) (r : request) (o : outcome) :
  P (Network r) → only_emits P (await r o).
Proof.
  intros HP [storage d tr]. exists [Network r].
  destruct o; (split; [ done | by apply Forall_singleton ]).
Qed.

Lemma only_emits_setItem (P : effect → Prop) (key : string) (v : jsval) :
  P (StorageSet key (ToString v)) → only_emits P (setItem key v).
Proof.
  intros HP [storage d tr]. eexists [_].
  split; [ done | by apply Forall_singleton ].
Qed.

Lemma only_emits_removeItem (P : effect → Prop) (key : string) :
  P (StorageRemove key) → only_emits P (removeItem key).
Proof.
  intros HP [storage d tr]. eexists [_].
  split; [ done | by apply Forall_singleton ].
Qed.

Lemma only_emits_update_dash (P : effect → Prop)
    (f : DashboardState → DashboardState) (e : effect) :
  P e → only_emits P (update_dash f e).
Proof.
  intros HP [storage d tr]. exists [e].
  split; [ done | by apply Forall_singleton ].
Qed.

Lemma writes_record_text (value expiry : jsval) :
  writes_record
    (StorageSet "ebay_user_token"
       (ToString (VStr (JSON_stringify (AccessTokenRecord value expiry))))).
Proof. intros _. by exists value, expiry. Qed.

Lemma writes_record_other_key (key : string) (v : jsval) :
  key ≠ "ebay_user_token" → writes_record (StorageSet key (ToString v)).
Proof. intros Hkey Heq. contradiction. Qed.

Ltac records :=
  repeat first
    [ apply only_emits_ret | apply only_emits_throw | apply only_emits_get
    | apply only_emits_getItem
    | apply only_emits_await; exact I
    | apply only_emits_removeItem; exact I
    | apply only_emits_update_dash; exact I
    | apply only_emits_setItem;
      first [ apply writes_record_text
            | apply writes_record_other_key; discriminate ]
    | apply only_emits_bind; [ | intros ? ]
    | apply only_emits_try_catch; [ | intros ? ]
    | apply only_emits_try_finally
    | match goal with
      | |- only_emits _ (if ?c then _ else _) => destruct c
      | |- only_emits _ (match ?x with Some _ => _ | None => _ end) =>
          destruct x
      end ].

Lemma getValidAuthToken_writes_records
    (userId : jsval) (now : Z) (resp : outcome) (now_store : Z) :
  only_emits writes_record (getValidAuthToken userId now resp now_store).
Proof.
  unfold getValidAuthToken, stored_token, remote_token. records.
Qed.

Lemma handleMessage_writes_records
    (user : jsval) (event_origin : string) (event_data : jsval)
    (exchanged : outcome) (now : Z) :
  only_emits writes_record
    (handleMessage user event_origin event_data exchanged now).
Proof.
  unfold handleMessage, setEbayToken, setNeedsConnection. records.
Qed.

Lemma fetchListings_writes_records
    (user : jsval) (listings refresh : outcome) (now : Z) :
  only_emits writes_record (fetchListings user listings refresh now).
Proof.
  unfold fetchListings, clear_tokens_and_show_connect, setEbayToken,
    setNeedsConnection, setLoadingListings, setListingsError.
  records.
Qed.

(** C1: the mount-time check does not keep the stored record.  When
    the record under [ebay_user_token] is valid, [checkToken] ends by
    overwriting it with the bare token string; for a token that is not
    itself a JSON text, the key then holds no record at all. *)
Theorem checkToken_replaces_record_by_bare_token
    (user : jsval) (value : string) (expiry now : Z) (resp : outcome)
    (now_store : Z) (w : world) :
  truthy (own_prop user "id") = true →
  stored_record w (VStr value) (VNum (Num expiry)) →
  value ≠ "" → now < expiry → JSON_parse value = None →
  let '(c, w') := checkToken user now resp now_store w in
  c = Normal () ∧
  localStorage w' !! "ebay_user_token" = Some value ∧
  StorageSet "ebay_user_token" value ∈ trace w' ∧
  ¬ (∃ v e, stored_record w' v e) ∧
  ¬ local_record_valid w' now.
Proof.
  intros Hid Hrec Hval Hlt Hbad. destruct (truthy_id_user _ Hid) as [Hu Hnu].
  pose proof Hrec as (raw & fields & Hraw & Hne & _).
  apply truthy_VStr in Hne. apply truthy_VStr in Hval.
  pose proof (getValidAuthToken_local (own_prop user "id") _ _ _ resp
                now_store _ (stored_record_shown raw w _ _ Hrec) Hlt Hval)
    as Hrun.
  destruct w as [storage [p tok connect loading error] tr]. cbn in Hraw.
  unfold local_token_shown in Hrun. cbn [localStorage dash trace page
    loadingListings listingsError] in Hrun.
  unfold checkToken. rewrite Hu, Hid. cbn [negb orb].
  unfold mbind at 1 2 3. unfold M_bind, getItem. rewrite Hraw, Hne.
  unfold mbind at 1. unfold M_bind. unfold setEbayToken at 1.
  unfold update_dash at 1. unfold setNeedsConnection at 1.
  unfold update_dash at 1.
  rewrite <- app_assoc. cbn [app].
  unfold try_catch, get. rewrite Hnu. unfold mbind at 1 2, mret at 1.
  unfold M_bind, M_ret. rewrite Hrun, Hval. unfold_monad. cbn.
  split; [ done | ]. split; [ apply lookup_insert_eq | ]. split; [ | split ].
  - rewrite !elem_of_app. left. left. right. apply list_elem_of_singleton.
    reflexivity.
  - intros (v & e & (raw' & fields' & Hraw' & _ & Hparse & _)).
    cbn in Hraw'. rewrite lookup_insert_eq in Hraw'. congruence.
  - eapply malformed_record_invalid; [ apply lookup_insert_eq | done ].
Qed.

(** * Further properties of the handlers *)

(** ** The trace accounts for every change *)

Lemma replay_app (a b : list effect) (s : gmap string string * DashboardState) :
  replay (a ++ b) s = replay b (replay a s).
Proof. unfold replay. apply foldl_app. Qed.

Lemma logged_ret {A} (P : effect → Prop) (a : A) : logged P (mret a).
Proof. intros w. exists []. by rewrite app_nil_r. Qed.

Lemma logged_throw {A} (P : effect → Prop) (e : jsval) :
  logged P (@throw A e).
Proof. intros w. exists []. by rewrite app_nil_r. Qed.

Lemma logged_bind {A B} (P : effect → Prop) (m : M A) (f : A → M B) :
  logged P m → (∀ a, logged P (f a)) → logged P (m ≫= f).
Proof.
  intros Hm Hf w. destruct (Hm w) as (run & Ht & HP & Hs).
  unfold mbind, M_bind. destruct (m w) as [[a | e] w1]; cbn in *.
  - destruct (Hf a w1) as (run' & Ht' & HP' & Hs'). exists (run ++ run').
    rewrite Ht', Ht, app_assoc, Hs', Hs, replay_app.
    split; [ done | ]. split; [ by apply Forall_app | done ].
  - by exists run.
Qed.

Lemma logged_try_catch {A} (P : effect → Prop)
    (body : M A) (handler : jsval → M A) :
  logged P body → (∀ e, logged P (handler e)) →
  logged P (try_catch body handler).
Proof.
  intros Hm Hh w. destruct (Hm w) as (run & Ht & HP & Hs).
  unfold try_catch. destruct (body w) as [[a | e] w1]; cbn in *.
  - by exists run.
  - destruct (Hh e w1) as (run' & Ht' & HP' & Hs'). exists (run ++ run').
    rewrite Ht', Ht, app_assoc, Hs', Hs, replay_app.
    split; [ done | ]. split; [ by apply Forall_app | done ].
Qed.

Lemma logged_try_finally {A} (P : effect → Prop)
    (body : M A) (cleanup : M ()) :
  logged P body → logged P cleanup → logged P (try_finally body cleanup).
Proof.
  intros Hm Hc w. destruct (Hm w) as (run & Ht & HP & Hs).
  unfold try_finally. destruct (body w) as [c w1]; cbn in *.
  destruct (Hc w1) as (run' & Ht' & HP' & Hs'). exists (run ++ run').
  destruct (cleanup w1) as [[[] | e] w2]; cbn in *;
    rewrite Ht', Ht, app_assoc, Hs', Hs, replay_app;
    (split; [ done | ]; split; [ by apply Forall_app | done ]).
Qed.

Lemma logged_get (P : effect → Prop) (v : jsval) (name : string) :
  logged P (get v name).
Proof.
  unfold get. destruct (nullish v); [ apply logged_throw | apply logged_ret ].
Qed.

Lemma logged_getItem (P : effect → Prop) (key : string) :
  logged P (getItem key).
Proof. intros [storage d tr]. exists []. by rewrite app_nil_r. Qed.

Lemma logged_await (P : effect → Prop) (r : request) (o : outcome) :
  P (Network r) → logged P (await r o).
Proof.
  intros HP [storage [p token connect loading error] tr].
  exists [Network r].
  destruct o; (split; [ done | ]; split; [ by apply Forall_singleton | done ]).
Qed.

Lemma logged_setItem (P : effect → Prop) (key : string) (v : jsval) :
  P (StorageSet key (ToString v)) → logged P (setItem key v).
Proof.
  intros HP [storage [p token connect loading error] tr]. eexists [_].
  split; [ done | ]. split; [ by apply Forall_singleton | done ].
Qed.

Lemma logged_removeItem (P : effect → Prop) (key : string) :
  P (StorageRemove key) → logged P (removeItem key).
Proof.
  intros HP [storage [p token connect loading error] tr]. eexists [_].
  split; [ done | ]. split; [ by apply Forall_singleton | done ].
Qed.

Lemma logged_setEbayToken (P : effect → Prop) (v : jsval) :
  P (SetEbayToken v) → logged P (setEbayToken v).
Proof.
  intros HP [storage [p token connect loading error] tr]. eexists [_].
  split; [ done | ]. split; [ by apply Forall_singleton | done ].
Qed.

Lemma logged_setNeedsConnection (P : effect → Prop) (b : bool) :
  P (SetNeedsConnection b) → logged P (setNeedsConnection b).
Proof.
  intros HP [storage [p token connect loading error] tr]. eexists [_].
  split; [ done | ]. split; [ by apply Forall_singleton | done ].
Qed.

Lemma logged_setLoadingListings (P : effect → Prop) (b : bool) :
  P (SetLoadingListings b) → logged P (setLoadingListings b).
Proof.
  intros HP [storage [p token connect loading error] tr]. eexists [_].
  split; [ done | ]. split; [ by apply Forall_singleton | done ].
Qed.

Lemma logged_setListingsError (P : effect → Prop) (v : jsval) :
  P (SetListingsError v) → logged P (setListingsError v).
Proof.
  intros HP [storage [p token connect loading error] tr]. eexists [_].
  split; [ done | ]. split; [ by apply Forall_singleton | done ].
Qed.

Lemma js_or_truthy (a b : jsval) : truthy b = true → truthy (js_or a b) = true.
Proof. intros Hb. unfold js_or. by destruct (truthy a) eqn:Ha. Qed.

Ltac effect_ok :=
  first [ exact I | reflexivity | by left | by right | by right; left
        | by right; right | by right; apply js_or_truthy ].

Ltac log :=
  repeat first
    [ apply logged_ret | apply logged_throw | apply logged_get
    | apply logged_getItem
    | apply logged_await; effect_ok
    | apply logged_setItem; effect_ok
    | apply logged_removeItem; effect_ok
    | apply logged_setEbayToken; effect_ok
    | apply logged_setNeedsConnection; effect_ok
    | apply logged_setLoadingListings; effect_ok
    | apply logged_setListingsError; effect_ok
    | apply logged_bind; [ | intros ? ]
    | apply logged_try_catch; [ | intros ? ]
    | apply logged_try_finally
    | match goal with
      | |- logged _ (if ?c then _ else _) => destruct c
      | |- logged _ (match ?x with Some _ => _ | None => _ end) =>
          destruct x
      end ].

Lemma fetchListings_logged
    (user : jsval) (listings refresh : outcome) (now : Z) :
  logged fetch_effect (fetchListings user listings refresh now).
Proof. unfold fetchListings, clear_tokens_and_show_connect. log. Qed.

Lemma handleMessage_logged
    (user : jsval) (event_origin : string) (event_data : jsval)
    (exchanged : outcome) (now : Z) :
  logged exchange_effect
    (handleMessage user event_origin event_data exchanged now).
Proof. unfold handleMessage. log. Qed.

Lemma checkToken_logged
    (user : jsval) (now : Z) (resp : outcome) (now_store : Z) :
  logged check_effect (checkToken user now resp now_store).
Proof.
  unfold checkToken, getValidAuthToken, stored_token, remote_token. log.
Qed.

(** A property of the state that every effect of a run keeps is kept by
    the run. *)
Lemma replay_invariant (P : effect → Prop)
    (I : gmap string string * DashboardState → Prop) (run : list effect)
    (s : gmap string string * DashboardState) :
  (∀ e s, P e → I s → I (apply_effect e s)) →
  Forall P run → I s → I (replay run s).
Proof.
  intros Hstep HP. revert s.
  induction HP as [ | e run He _ IH ]; intros s Hs; [ done | ].
  cbn. apply IH. by apply Hstep.
Qed.

Lemma logged_invariant {A} (P : effect → Prop)
    (I : gmap string string * DashboardState → Prop) (m : M A) (w : world) :
  logged P m → (∀ e s, P e → I s → I (apply_effect e s)) →
  I (end_state w) → I (end_state (m w).2).
Proof.
  intros Hm Hstep Hw. destruct (Hm w) as (run & _ & HP & ->).
  by apply (replay_invariant P).
Qed.

(** ** The listings fetch, on every input *)

(** X1: whatever the two promises do, whoever the user is and even when
    the run itself ends by throwing, [fetchListings] leaves
    [loadingListings] false. *)
Theorem fetchListings_stops_loading
    (user : jsval) (listings refresh : outcome) (now : Z) (w : world) :
  loadingListings (dash (fetchListings user listings refresh now w).2) = false.
Proof.
  unfold fetchListings. unfold mbind at 1 2. unfold M_bind.
  destruct w as [storage [p token connect loading error] tr]. cbn.
  unfold try_finally.
  match goal with |- context [try_catch ?b ?h ?w0] =>
    destruct (try_catch b h w0) as [c [storage' [p' t' c' l' e'] tr']]
  end.
  reflexivity.
Qed.

(** X2: after any run of [fetchListings] the error state is either
    [null] or a truthy message: the run never leaves a falsy error other
    than [null], which the test of line 281 would take for no error. *)
Theorem fetchListings_error_is_visible
    (user : jsval) (listings refresh : outcome) (now : Z) (w : world) :
  let d := dash (fetchListings user listings refresh now w).2 in
  listingsError d = VNull ∨ truthy (listingsError d) = true.
Proof.
  cbn zeta. unfold fetchListings. unfold mbind at 1 2. unfold M_bind.
  destruct w as [storage [p token connect loading error] tr]. cbn.
  match goal with |- context [try_finally ?b ?c ?w0] =>
    assert (Hlog : logged fetch_effect (try_finally b c))
      by (unfold clear_tokens_and_show_connect; log);
    apply (logged_invariant fetch_effect
             (λ s, listingsError s.2 = VNull
                   ∨ truthy (listingsError s.2) = true) _ w0 Hlog)
  end; [ | by left ].
  intros e [st [p' t' c' l' e']] He Hs.
  destruct e as [ | | | | | | v | ]; cbn in *; try done.
Qed.

(** X3: [fetchListings] touches no storage key other than
    [ebay_user_token] and [ebay_refresh_token]. *)
Theorem fetchListings_spares_other_keys
    (user : jsval) (listings refresh : outcome) (now : Z) (w : world)
    (k : string) :
  k ≠ "ebay_user_token" → k ≠ "ebay_refresh_token" →
  localStorage (fetchListings user listings refresh now w).2 !! k
  = localStorage w !! k.
Proof.
  intros Hk1 Hk2.
  apply (logged_invariant fetch_effect
           (λ s, s.1 !! k = localStorage w !! k) _ w
           (fetchListings_logged user listings refresh now)); [ | done ].
  intros e [st [p' t' c' l' e']] He Hs.
  destruct e as [ key v | key | | | | | | ]; cbn in *; try done.
  - subst key. by rewrite lookup_insert_ne.
  - destruct He as [-> | ->]; by rewrite lookup_delete_ne.
Qed.

(** X4: [fetchListings] never withdraws the connect prompt and never
    changes the page: [needsConnection] keeps its value or becomes
    true. *)
Theorem fetchListings_keeps_connect_prompt
    (user : jsval) (listings refresh : outcome) (now : Z) (w : world) :
  let d := dash (fetchListings user listings refresh now w).2 in
  page d = page (dash w) ∧
  (needsConnection d = needsConnection (dash w) ∨ needsConnection d = true).
Proof.
  cbn zeta.
  apply (logged_invariant fetch_effect
           (λ s, page s.2 = page (dash w)
                 ∧ (needsConnection s.2 = needsConnection (dash w)
                    ∨ needsConnection s.2 = true)) _ w
           (fetchListings_logged user listings refresh now)); [ | by split; [ | left ] ].
  intros e [st [p' t' c' l' e']] He Hs.
  destruct e as [ | | | | b | | | ]; cbn in *; try done.
  subst b. split; [ apply Hs | by right ].
Qed.

(** ** The listings fetch, path by path *)

(** X5: a successful listings response changes neither the storage nor
    the token: the run switches loading on, clears the error, sends the
    one request and switches loading off; nothing makes the effect run
    again. *)
Theorem fetchListings_success
    (user data : jsval) (refresh : outcome) (now : Z) (w : world) :
  truthy (own_prop data "success") = true →
  let run :=
    [SetLoadingListings true; SetListingsError VNull;
     Network GetActiveListings; SetLoadingListings false] in
  let '(c, w') := fetchListings user (Resolve data) refresh now w in
  c = Normal () ∧ trace w' = trace w ++ run ∧
  localStorage w' = localStorage w ∧
  dash w' = {| page := page (dash w); ebayToken := ebayToken (dash w);
               needsConnection := needsConnection (dash w);
               loadingListings := false; listingsError := VNull |} ∧
  listings_effect_reruns (ebayToken (dash w)) run = false.
Proof.
  intros Hs. assert (Hn : nullish data = false) by by destruct data.
  destruct w as [storage [p tok connect loading error] tr].
  unfold fetchListings. unfold_monad. cbn. rewrite Hn. cbn. rewrite Hs. cbn.
  rewrite <- !app_assoc. done.
Qed.

(** X6: a failed listings response that is not the coded 932 failure
    shows [data.error], or the fixed text when there is none, and
    touches neither the storage nor the token nor the connect prompt;
    the refresh endpoint is not called. *)
Theorem fetchListings_plain_failure
    (user data : jsval) (refresh : outcome) (now : Z) (w : world) :
  nullish data = false →
  truthy (own_prop data "success") = false →
  strict_eq_num (get_opt (elem0_opt (own_prop data "errors")) "errorId") 932
  = false →
  let message :=
    js_or (own_prop data "error") (VStr "Failed to load listings.") in
  let '(c, w') := fetchListings user (Resolve data) refresh now w in
  c = Normal () ∧
  trace w' = trace w ++
    [SetLoadingListings true; SetListingsError VNull;
     Network GetActiveListings; SetListingsError message;
     SetLoadingListings false] ∧
  localStorage w' = localStorage w ∧
  dash w' = {| page := page (dash w); ebayToken := ebayToken (dash w);
               needsConnection := needsConnection (dash w);
               loadingListings := false; listingsError := message |}.
Proof.
  intros Hn Hs H932.
  destruct w as [storage [p tok connect loading error] tr].
  unfold fetchListings. unfold_monad. cbn. rewrite Hn. cbn. rewrite Hs. cbn.
  rewrite H932. cbn. rewrite <- !app_assoc. done.
Qed.

(** X7: a listings call that throws an error without status 401 shows
    [err.message], or the fixed text when there is none, and keeps the
    tokens, the storage and the connect prompt as they were. *)
Theorem fetchListings_other_error
    (user err : jsval) (refresh : outcome) (now : Z) (w : world) :
  nullish err = false → carries_401 err = false →
  let message :=
    js_or (own_prop err "message") (VStr "Error loading listings.") in
  let '(c, w') := fetchListings user (Reject err) refresh now w in
  c = Normal () ∧
  trace w' = trace w ++
    [SetLoadingListings true; SetListingsError VNull;
     Network GetActiveListings; SetListingsError message;
     SetLoadingListings false] ∧
  localStorage w' = localStorage w ∧
  dash w' = {| page := page (dash w); ebayToken := ebayToken (dash w);
               needsConnection := needsConnection (dash w);
               loadingListings := false; listingsError := message |}.
Proof.
  intros Hn H401. unfold carries_401 in H401.
  destruct w as [storage [p tok connect loading error] tr].
  unfold fetchListings. unfold_monad. cbn. rewrite Hn. cbn. rewrite H401. cbn.
  rewrite <- !app_assoc. done.
Qed.

(** X8: a thrown [null] or [undefined] is not handled: the catch block
    reads [err.response], the [TypeError] of that read escapes
    [fetchListings], and only the [finally] still runs.  The tokens and
    the error state are as before the throw. *)
Theorem fetchListings_nullish_error_escapes
    (user err : jsval) (refresh : outcome) (now : Z) (w : world) :
  nullish err = true →
  let '(c, w') := fetchListings user (Reject err) refresh now w in
  c = Throw (type_error err "response") ∧
  trace w' = trace w ++
    [SetLoadingListings true; SetListingsError VNull;
     Network GetActiveListings; SetLoadingListings false] ∧
  localStorage w' = localStorage w ∧
  dash w' = {| page := page (dash w); ebayToken := ebayToken (dash w);
               needsConnection := needsConnection (dash w);
               loadingListings := false; listingsError := VNull |}.
Proof.
  intros Hn.
  destruct w as [storage [p tok connect loading error] tr].
  unfold fetchListings. unfold_monad. cbn. rewrite Hn. cbn.
  rewrite <- !app_assoc. done.
Qed.

(** X9: when the coded 932 failure arrives while [user] is [null] or
    [undefined], reading [user.id] throws before the refresh call: no
    refresh request is sent, the tokens stay, and the text of that
    [TypeError] is what the dashboard shows. *)
Theorem fetchListings_expired_without_user
    (user data : jsval) (refresh : outcome) (now : Z) (w : world) :
  nullish user = true → token_expired_932 data →
  let message :=
    js_or (VStr (TypeError_message user "id"))
          (VStr "Error loading listings.") in
  let '(c, w') := fetchListings user (Resolve data) refresh now w in
  c = Normal () ∧
  trace w' = trace w ++
    [SetLoadingListings true; SetListingsError VNull;
     Network GetActiveListings; SetListingsError message;
     SetLoadingListings false] ∧
  localStorage w' = localStorage w ∧
  ebayToken (dash w') = ebayToken (dash w) ∧
  needsConnection (dash w') = needsConnection (dash w) ∧
  listingsError (dash w') = message.
Proof.
  intros Hu Hd. pose proof (token_expired_not_nullish _ Hd) as Hn.
  destruct Hd as [Hs H932].
  destruct w as [storage [p tok connect loading error] tr].
  unfold fetchListings, type_error. unfold_monad. cbn.
  rewrite Hn. cbn. rewrite Hs. cbn. rewrite H932, Hu. cbn.
  rewrite <- !app_assoc. done.
Qed.

(** *** The request budget of one run *)

Lemma refresh_requests_app (a b : list effect) :
  refresh_requests (a ++ b) = (refresh_requests a + refresh_requests b)%nat.
Proof.
  unfold refresh_requests. by rewrite List.filter_app, length_app.
Qed.

Lemma budget_ret {A} (n : nat) (a : A) : refreshes_at_most n (mret a).
Proof. intros w. exists []. rewrite app_nil_r. split; [ done | cbn; lia ]. Qed.

Lemma budget_throw {A} (n : nat) (e : jsval) :
  refreshes_at_most n (@throw A e).
Proof. intros w. exists []. rewrite app_nil_r. split; [ done | cbn; lia ]. Qed.

Lemma budget_bind {A B} (n k : nat) (m : M A) (f : A → M B) :
  refreshes_at_most n m → (∀ a, refreshes_at_most k (f a)) →
  refreshes_at_most (n + k) (m ≫= f).
Proof.
  intros Hm Hf w. destruct (Hm w) as (run & Ht & Hn).
  unfold mbind, M_bind. destruct (m w) as [[a | e] w1]; cbn in *.
  - destruct (Hf a w1) as (run' & Ht' & Hn'). exists (run ++ run').
    rewrite Ht', Ht, app_assoc, refresh_requests_app. split; [ done | lia ].
  - exists run. split; [ done | lia ].
Qed.

Lemma budget_try_catch {A} (n k : nat) (body : M A) (handler : jsval → M A) :
  refreshes_at_most n body → (∀ e, refreshes_at_most k (handler e)) →
  refreshes_at_most (n + k) (try_catch body handler).
Proof.
  intros Hm Hh w. destruct (Hm w) as (run & Ht & Hn).
  unfold try_catch. destruct (body w) as [[a | e] w1]; cbn in *.
  - exists run. split; [ done | lia ].
  - destruct (Hh e w1) as (run' & Ht' & Hn'). exists (run ++ run').
    rewrite Ht', Ht, app_assoc, refresh_requests_app. split; [ done | lia ].
Qed.

Lemma budget_try_finally {A} (n k : nat) (body : M A) (cleanup : M ()) :
  refreshes_at_most n body → refreshes_at_most k cleanup →
  refreshes_at_most (n + k) (try_finally body cleanup).
Proof.
  intros Hm Hc w. destruct (Hm w) as (run & Ht & Hn).
  unfold try_finally. destruct (body w) as [c w1]; cbn in *.
  destruct (Hc w1) as (run' & Ht' & Hn'). exists (run ++ run').
  destruct (cleanup w1) as [[[] | e] w2]; cbn in *;
    rewrite Ht', Ht, app_assoc, refresh_requests_app; (split; [ done | lia ]).
Qed.

Lemma budget_get (n : nat) (v : jsval) (name : string) :
  refreshes_at_most n (get v name).
Proof.
  unfold get. destruct (nullish v); [ apply budget_throw | apply budget_ret ].
Qed.

Lemma budget_await (n : nat) (r : request) (o : outcome) :
  ((if is_refresh_request (Network r) then 1 else 0) ≤ n)%nat →
  refreshes_at_most n (await r o).
Proof.
  intros Hn [storage d tr]. exists [Network r].
  split; [ by destruct o | ]. unfold refresh_requests. cbn.
  by destruct r.
Qed.

Lemma budget_setItem (n : nat) (key : string) (v : jsval) :
  refreshes_at_most n (setItem key v).
Proof. intros [storage d tr]. eexists [_]. split; [ done | cbn; lia ]. Qed.

Lemma budget_removeItem (n : nat) (key : string) :
  refreshes_at_most n (removeItem key).
Proof. intros [storage d tr]. eexists [_]. split; [ done | cbn; lia ]. Qed.

Lemma budget_update_dash (n : nat)
    (f : DashboardState → DashboardState) (e : effect) :
  is_refresh_request e = false → refreshes_at_most n (update_dash f e).
Proof.
  intros He [storage d tr]. exists [e]. split; [ done | ].
  unfold refresh_requests. cbn. rewrite He. cbn. lia.
Qed.

Ltac budget :=
  repeat first
    [ apply budget_ret | apply budget_throw | apply budget_get
    | apply budget_await; cbn; lia
    | apply budget_setItem | apply budget_removeItem
    | apply budget_update_dash; reflexivity
    | apply (budget_bind 0 0); [ | intros ? ]
    | apply (budget_bind 0 1);
      [ solve [ budget ] | intros ? ]
    | apply (budget_bind 1 0); [ | intros ? ]
    | match goal with
      | |- refreshes_at_most _ (if ?c then _ else _) => destruct c
      end ].

Lemma fetchListings_refresh_budget
    (user : jsval) (listings refresh : outcome) (now : Z) :
  refreshes_at_most 1 (fetchListings user listings refresh now).
Proof.
  unfold fetchListings, clear_tokens_and_show_connect, setEbayToken,
    setNeedsConnection, setLoadingListings, setListingsError.
  apply (budget_bind 0 1); [ budget | intros ? ].
  apply (budget_bind 0 1); [ budget | intros ? ].
  apply (budget_try_finally 1 0); [ | budget ].
  apply (budget_try_catch 1 0); [ | intros err; budget ].
  budget.
Qed.

(** X10: one run of [fetchListings] asks for the listings exactly once
    and calls the refresh endpoint at most once, on every input. *)
Theorem fetchListings_request_budget
    (user : jsval) (listings refresh : outcome) (now : Z) (w : world) :
  let run := effects_of (fetchListings user listings refresh now) w in
  listings_requests run = 1%nat ∧ (refresh_requests run ≤ 1)%nat.
Proof.
  cbn zeta.
  destruct (fetchListings_requests_once user listings refresh now w)
    as (run & Ht & Hn).
  destruct (fetchListings_refresh_budget user listings refresh now w)
    as (run' & Ht' & Hn').
  rewrite (effects_of_run _ w run Ht). split; [ done | ].
  rewrite Ht in Ht'. apply app_inv_head in Ht'. by subst run'.
Qed.

(** ** What the dashboard shows afterwards *)

(** X11: after a listings call rejected with a 401 the connect prompt is
    shown on every route; the token change makes React run the listings
    effect once more, and that run, finding no token, does nothing: the
    teardown does not fetch again. *)
Theorem unauthorized_ends_the_cycle
    (user token err : jsval) (refresh : outcome) (now : Z) (w : world) :
  truthy token = true → carries_401 err = true →
  let w' := (listings_effect user token (Reject err) refresh now w).2 in
  let run :=
    effects_of (listings_effect user token (Reject err) refresh now) w in
  listings_effect_reruns token run = true ∧
  (∀ pathname, Home_view (dash w') pathname = ConnectPrompt) ∧
  ∀ (listings' refresh' : outcome) (now' : Z),
    listings_effect user (ebayToken (dash w')) listings' refresh' now' w'
    = (Normal (), w').
Proof.
  intros Htok He. cbn zeta.
  assert (Hrun : listings_effect user token (Reject err) refresh now w
                 = fetchListings user (Reject err) refresh now w).
  { unfold listings_effect. by rewrite Htok. }
  pose proof (fetchListings_unauthorized user err refresh now w He) as Hf.
  rewrite (effects_of_run _ w _ (f_equal (λ r, trace r.2) (eq_trans Hrun Hf))).
  rewrite Hrun, Hf. cbn.
  split; [ destruct token as [ | | | [ | ] | | | ]; cbn in *; congruence
         | by split ].
Qed.

(** X12: a successful listings response on the [/home] route, with the
    connect prompt off, ends on the listings table at the current
    page. *)
Theorem view_after_success
    (user data : jsval) (refresh : outcome) (now : Z) (w : world) :
  needsConnection (dash w) = false →
  truthy (own_prop data "success") = true →
  Home_view (dash (fetchListings user (Resolve data) refresh now w).2) "/home"
  = Chrome (Some (ListingsPanel (page (dash w)))).
Proof.
  intros Hc Hs. assert (Hn : nullish data = false) by by destruct data.
  destruct w as [storage [p tok connect loading error] tr].
  cbn in Hc. subst connect.
  unfold fetchListings. unfold_monad. cbn. rewrite Hn. cbn. by rewrite Hs.
Qed.

(** X13: a failed listings response other than the coded 932 failure, on
    the [/home] route with the connect prompt off, ends on the error
    line with [data.error], or the fixed text, as its child, provided
    React accepts that value as a child; when [data.error] is, or as an
    array holds, a plain object, the render throws and no error line is
    shown. *)
Theorem view_after_plain_failure
    (user data : jsval) (refresh : outcome) (now : Z) (w : world) :
  needsConnection (dash w) = false →
  nullish data = false →
  truthy (own_prop data "success") = false →
  strict_eq_num (get_opt (elem0_opt (own_prop data "errors")) "errorId") 932
  = false →
  let message :=
    js_or (own_prop data "error") (VStr "Failed to load listings.") in
  Home_view (dash (fetchListings user (Resolve data) refresh now w).2) "/home"
  = if valid_child message
    then Chrome (Some (ErrorPanel message))
    else RenderThrows message.
Proof.
  intros Hc Hn Hs H932 message.
  destruct w as [storage [p tok connect loading error] tr].
  cbn in Hc. subst connect.
  unfold fetchListings. unfold_monad. cbn. rewrite Hn. cbn. rewrite Hs. cbn.
  rewrite H932. cbn. unfold Home_view. cbn. fold message.
  assert (Hshown : truthy message = true) by by apply js_or_truthy.
  by rewrite Hshown.
Qed.

(** ** The two global signals *)

(** X14: the [ebayTokenExpired] signal is a soft reset: the token and the
    error are dropped from the dashboard state and the connect prompt is
    shown on every route, but nothing is removed from storage; the
    listings effect, run again for the dropped token, does nothing. *)
Theorem handleTokenExpiry_soft_reset (w : world) :
  let '(c, w') := handleTokenExpiry w in
  c = Normal () ∧
  localStorage w' = localStorage w ∧
  trace w' = trace w ++
    [SetEbayToken VNull; SetNeedsConnection true; SetListingsError VNull] ∧
  dash w' = {| page := page (dash w); ebayToken := VNull;
               needsConnection := true;
               loadingListings := loadingListings (dash w);
               listingsError := VNull |} ∧
  (∀ pathname, Home_view (dash w') pathname = ConnectPrompt) ∧
  ∀ (user : jsval) (listings refresh : outcome) (now : Z),
    listings_effect user (ebayToken (dash w')) listings refresh now w'
    = (Normal (), w').
Proof.
  destruct w as [storage [p tok connect loading error] tr].
  unfold handleTokenExpiry. unfold_monad. cbn.
  rewrite <- !app_assoc. done.
Qed.

(** X15: the hard reset touches the five purged keys only: every other
    key keeps its value. *)
Theorem handleAuthFailure_spares_other_keys (w : world) (k : string) :
  k ∉ purged_keys →
  localStorage (handleAuthFailure w).2 !! k = localStorage w !! k.
Proof.
  intros Hk. unfold purged_keys in Hk.
  rewrite !not_elem_of_cons in Hk.
  destruct Hk as (H1 & H2 & H3 & H4 & H5 & _).
  destruct w as [storage d tr].
  unfold handleAuthFailure. unfold_monad. cbn.
  by rewrite !lookup_delete_ne.
Qed.

(** ** The token validator, beyond its local answer *)

(** The remote step when the backend grants a token. *)
Lemma remote_token_granted
    (userId resp : jsval) (now : Z) (w : world) :
  token_granted resp = true →
  let token := own_prop (own_prop resp "data") "access_token" in
  let lifetime := own_prop (own_prop resp "data") "expires_in_seconds" in
  let record :=
    JSON_stringify
      (AccessTokenRecord token
         (VNum (num_add (Num now) (num_mul (ToNumber lifetime) (Num 1000))))) in
  remote_token userId (Resolve resp) now w
  = (Normal token,
     {| localStorage := <["ebay_user_token" := record]> (localStorage w);
        dash := dash w;
        trace := trace w ++
          [Network (GetEbayUserToken userId);
           StorageSet "ebay_user_token" record] |}).
Proof.
  intros Hg. unfold token_granted in Hg.
  destruct w as [storage d tr]. unfold remote_token. unfold_monad. cbn.
  rewrite Hg. cbn. by rewrite <- app_assoc.
Qed.


(** X16: without a valid local record, a response that grants a token
    (truthy [success] and [data], a string [access_token]) is stored as
    one record under [ebay_user_token], with expiry
    [now + expires_in_seconds * 1000], and the token is returned; the
    request and that write are the only effects. *)
Theorem getValidAuthToken_stores_grant
    (userId resp : jsval) (now now_store : Z) (w : world) :
  ¬ local_record_valid w now → token_granted resp = true →
  let token := own_prop (own_prop resp "data") "access_token" in
  let lifetime := own_prop (own_prop resp "data") "expires_in_seconds" in
  let record :=
    JSON_stringify
      (AccessTokenRecord token
         (VNum (num_add (Num now_store)
                  (num_mul (ToNumber lifetime) (Num 1000))))) in
  let '(c, w') := getValidAuthToken userId now (Resolve resp) now_store w in
  c = Normal token ∧
  localStorage w' = <["ebay_user_token" := record]> (localStorage w) ∧
  dash w' = dash w ∧
  trace w' = trace w ++
    [Network (GetEbayUserToken userId); StorageSet "ebay_user_token" record].
Proof.
  intros Hinv Hg. cbn zeta.
  rewrite (getValidAuthToken_remote _ _ _ _ _ Hinv).
  by rewrite (remote_token_granted _ _ _ _ Hg).
Qed.


(** Step 1 of the validator changes nothing, and what it answers is
    truthy. *)
Lemma stored_token_answer (raw : jsval) (now : Z) (w : world) :
  ∃ o, stored_token raw now w = (Normal o, w) ∧
       ∀ value, o = Some value → truthy value = true.
Proof.
  unfold stored_token. unfold_monad.
  destruct (truthy raw); [ | by eexists ].
  destruct (JSON_parse (ToString raw)) as [parsed|]; [ | by eexists ].
  destruct (nullish parsed); [ by eexists | ]. cbn.
  match goal with |- context [if ?c then _ else _] =>
    destruct c eqn:Hc
  end; [ | by eexists ].
  eexists. split; [ reflexivity | ]. intros value [= <-].
  by apply andb_prop in Hc as [_ Hc].
Qed.

(** X18: on every input the validator leaves the dashboard state alone,
    touches no key but [ebay_user_token], and does one of three things:
    nothing, and it then returns a truthy value and the storage is as it
    was; the request alone, and it then returns [null] and the storage
    is as it was; or the request followed by one write of
    [ebay_user_token].  Nothing is said here of how a run that writes
    completes. *)
Theorem getValidAuthToken_footprint
    (userId : jsval) (now : Z) (resp : outcome) (now_store : Z) (w : world)
    (k : string) :
  k ≠ "ebay_user_token" →
  let '(c, w') := getValidAuthToken userId now resp now_store w in
  dash w' = dash w ∧
  localStorage w' !! k = localStorage w !! k ∧
  ∃ run, trace w' = trace w ++ run ∧
    (run = [] ∧ localStorage w' = localStorage w
       ∧ (∃ token, c = Normal token ∧ truthy token = true)
     ∨ run = [Network (GetEbayUserToken userId)]
       ∧ localStorage w' = localStorage w ∧ c = Normal VNull
     ∨ ∃ text, run = [Network (GetEbayUserToken userId);
                      StorageSet "ebay_user_token" text]).
Proof.
  intros Hk. destruct w as [storage d tr].
  unfold getValidAuthToken. unfold mbind at 1 2. unfold M_bind, getItem.
  match goal with |- context [stored_token ?r ?n ?w0] =>
    destruct (stored_token_answer r n w0) as (o & -> & Htruthy)
  end.
  destruct o as [value|].
  { cbn. do 2 (split; [ done | ]). exists []. rewrite app_nil_r.
    split; [ done | ]. left. eauto 6. }
  unfold remote_token. unfold_monad.
  destruct resp as [r | e]; cbn.
  - match goal with |- context [if ?c then _ else _] => destruct c end; cbn.
    + rewrite lookup_insert_ne by done. rewrite <- app_assoc.
      do 2 (split; [ done | ]). eauto 8.
    + do 2 (split; [ done | ]). eauto 8.
  - do 2 (split; [ done | ]). eauto 8.
Qed.

(** X19: what the validator stores it later reads, wherever [JSON.parse]
    undoes [JSON.stringify] on the stored record: after a grant of a
    non-empty token for [lifetime] seconds, a call made before
    [now_store + lifetime * 1000] answers that token from storage
    without any effect. *)
Theorem stored_grant_is_reused
    (userId : jsval) (token : string) (lifetime : Z)
    (now now_store later later_store : Z) (resp : outcome) (w : world) :
  let granted :=
    VObj [("success", VBool true);
          ("data", VObj [("access_token", VStr token);
                         ("expires_in_seconds", VNum (Num lifetime))])] in
  let record :=
    AccessTokenRecord (VStr token)
      (VNum (Num (now_store + lifetime * 1000))) in
  JSON_stringify record ≠ "" →
  JSON_parse (JSON_stringify record) = Some record →
  ¬ local_record_valid w now → token ≠ "" →
  later < now_store + lifetime * 1000 →
  let '(first, w1) :=
    getValidAuthToken userId now (Resolve granted) now_store w in
  let '(second, w2) :=
    getValidAuthToken userId later resp later_store w1 in
  first = Normal (VStr token) ∧ second = Normal (VStr token) ∧ w2 = w1.
Proof.
  intros granted record Hne Hparse Hinv Htok Hlater.
  rewrite (getValidAuthToken_remote _ _ _ _ _ Hinv).
  rewrite (remote_token_granted userId granted now_store w eq_refl).
  cbn [own_prop lookup_field String.eqb Ascii.eqb Bool.eqb ToNumber].
  match goal with |- context [getValidAuthToken _ _ _ _ ?w1] =>
    rewrite (getValidAuthToken_local userId (VStr token)
               (now_store + lifetime * 1000) later resp later_store w1)
  end; [ done | | done | by apply truthy_VStr ].
  eexists _, _. cbn. rewrite lookup_insert_eq.
  split; [ reflexivity | ]. split; [ exact Hne | ].
  split; [ exact Hparse | done ].
Qed.

(** ** The OAuth message handler, on a trusted origin *)

Lemma truthy_id_opt (user : jsval) :
  truthy (get_opt user "id") = true →
  nullish user = false ∧ get_opt user "id" = own_prop user "id".
Proof. by destruct user. Qed.

(** X20: a trusted message with a code, for a user with an id, whose
    exchange succeeds: the user id is stored, then the record of
    [data.access_token] with expiry [now + (data.expires_in || 7200) *
    1000], then the refresh token if it is truthy; [ebayToken] becomes
    the access token and the connect prompt is withdrawn.  The access
    token itself is not checked. *)
Theorem handleMessage_exchange_stored
    (user event_data resp : jsval) (now : Z) (w : world) :
  nullish event_data = false →
  truthy (own_prop event_data "code") = true →
  truthy (get_opt user "id") = true →
  truthy (own_prop resp "success") = true →
  nullish (own_prop resp "data") = false →
  let code := own_prop event_data "code" in
  let userId := own_prop user "id" in
  let data := own_prop resp "data" in
  let access_token := own_prop data "access_token" in
  let refresh_token := own_prop data "refresh_token" in
  let expiresIn := js_or (own_prop data "expires_in") (VNum (Num 7200)) in
  let record :=
    JSON_stringify
      (AccessTokenRecord access_token
         (VNum (num_add (Num now) (num_mul (ToNumber expiresIn) (Num 1000))))) in
  let '(c, w') :=
    handleMessage user window_location_origin event_data (Resolve resp) now w in
  c = Normal () ∧
  trace w' = trace w ++
    [Network (ExchangeCode code userId); StorageSet "userId" (ToString userId);
     StorageSet "ebay_user_token" record] ++
    (if truthy refresh_token
     then [StorageSet "ebay_refresh_token" (ToString refresh_token)]
     else []) ++
    [SetEbayToken access_token; SetNeedsConnection false] ∧
  localStorage w' !! "userId" = Some (ToString userId) ∧
  localStorage w' !! "ebay_user_token" = Some record ∧
  localStorage w' !! "ebay_refresh_token"
  = (if truthy refresh_token then Some (ToString refresh_token)
     else localStorage w !! "ebay_refresh_token") ∧
  dash w' = {| page := page (dash w); ebayToken := access_token;
               needsConnection := false;
               loadingListings := loadingListings (dash w);
               listingsError := listingsError (dash w) |}.
Proof.
  intros Hdata Hcode Hid Hs Hd. destruct (truthy_id_opt _ Hid) as [Hu _].
  assert (Hr : nullish resp = false) by by destruct resp.
  destruct w as [storage [p tok connect loading error] tr].
  unfold handleMessage. rewrite String.eqb_refl. cbn [negb].
  unfold_monad.
  repeat progress (cbn; rewrite ?Hdata, ?Hcode, ?Hid, ?Hu, ?Hr, ?Hs, ?Hd).
  destruct (truthy (own_prop (own_prop resp "data") "refresh_token"));
    cbn; rewrite <- ?app_assoc; cbn;
    repeat first [ rewrite lookup_insert_eq
                 | rewrite lookup_insert_ne by done ]; done.
Qed.

(** X21: a trusted message with a code whose exchange fails (the call
    throws, or answers without a truthy [success]) changes nothing: the
    request is the only effect and whatever was thrown is swallowed. *)
Theorem handleMessage_exchange_failed
    (user event_data : jsval) (exchanged : outcome) (now : Z) (w : world) :
  nullish event_data = false →
  truthy (own_prop event_data "code") = true →
  truthy (get_opt user "id") = true →
  exchange_refused exchanged →
  handleMessage user window_location_origin event_data exchanged now w
  = (Normal (),
     emit (Network (ExchangeCode (own_prop event_data "code")
                      (own_prop user "id"))) w).
Proof.
  intros Hdata Hcode Hid Href. destruct (truthy_id_opt _ Hid) as [Hu _].
  destruct w as [storage d tr].
  unfold handleMessage. rewrite String.eqb_refl. cbn [negb].
  unfold_monad.
  repeat progress (cbn; rewrite ?Hdata, ?Hcode, ?Hid, ?Hu).
  destruct exchanged as [resp | e]; cbn; [ | done ].
  destruct Href as [Hn | Hs]; [ by rewrite Hn | ].
  destruct (nullish resp) eqn:Hn; [ done | ]. cbn. by rewrite Hs.
Qed.

(** X22: [handleMessage] returns with the world unchanged exactly when
    the message is ignored: its origin is foreign, or its data holds no
    truthy code, or the user has no truthy id.  In every other case
    something has happened by the time it returns. *)
Theorem handleMessage_ignores_iff
    (user : jsval) (event_origin : string) (event_data : jsval)
    (exchanged : outcome) (now : Z) (w : world) :
  handleMessage user event_origin event_data exchanged now w = (Normal (), w)
  ↔ event_origin ≠ window_location_origin
    ∨ nullish event_data = false
      ∧ (truthy (own_prop event_data "code") = false
         ∨ truthy (get_opt user "id") = false).
Proof.
  destruct w as [storage d tr].
  unfold handleMessage.
  destruct (String.eqb_spec event_origin window_location_origin)
    as [-> | Hne]; cbn [negb]; [ | by split; [ left | ] ].
  unfold_monad.
  destruct (nullish event_data) eqn:Hdata; cbn.
  { split; [ done | ]. by intros [? | [? _]]. }
  destruct (truthy (own_prop event_data "code")) eqn:Hcode; cbn;
    [ | split; [ right | ]; auto ].
  destruct (truthy (get_opt user "id")) eqn:Hid; cbn;
    [ | split; [ right | ]; auto ].
  split; [ | by intros [? | [_ [? | ?]]] ].
  intros Hrun. exfalso.
  destruct (truthy_id_opt _ Hid) as [Hu _]. rewrite Hu in Hrun. cbn in Hrun.
  apply (f_equal (λ r, List.length (trace r.2))) in Hrun. revert Hrun.
  destruct exchanged as [resp | e]; cbn;
    repeat match goal with
    | |- context [if ?c then _ else _] => destruct c; cbn
    end;
    destruct d; cbn; rewrite ?length_app; cbn; lia.
Qed.

(** X23: a trusted message whose [data] is [null] or [undefined] makes
    the handler throw: the destructuring on line 34 is outside the
    [try], so the [TypeError] escapes; nothing has been done by then. *)
Theorem handleMessage_nullish_data_throws
    (user event_data : jsval) (exchanged : outcome) (now : Z) (w : world) :
  nullish event_data = true →
  handleMessage user window_location_origin event_data exchanged now w
  = (Throw (type_error event_data "code"), w).
Proof.
  intros Hdata. destruct w as [storage d tr].
  unfold handleMessage. rewrite String.eqb_refl. cbn [negb].
  unfold_monad. by rewrite Hdata.
Qed.

(** X24: an exchange that reports success without [data] leaves a partial
    write: the user id is stored, then reading [resp.data.expires_in]
    throws, the error is swallowed, and neither the token record nor the
    dashboard state is touched. *)
Theorem handleMessage_partial_write
    (user event_data resp : jsval) (now : Z) (w : world) :
  nullish event_data = false →
  truthy (own_prop event_data "code") = true →
  truthy (get_opt user "id") = true →
  truthy (own_prop resp "success") = true →
  nullish (own_prop resp "data") = true →
  let userId := own_prop user "id" in
  let '(c, w') :=
    handleMessage user window_location_origin event_data (Resolve resp) now w in
  c = Normal () ∧
  trace w' = trace w ++
    [Network (ExchangeCode (own_prop event_data "code") userId);
     StorageSet "userId" (ToString userId)] ∧
  localStorage w' = <["userId" := ToString userId]> (localStorage w) ∧
  dash w' = dash w.
Proof.
  intros Hdata Hcode Hid Hs Hd. destruct (truthy_id_opt _ Hid) as [Hu _].
  assert (Hr : nullish resp = false) by by destruct resp.
  destruct w as [storage d tr].
  unfold handleMessage. rewrite String.eqb_refl. cbn [negb].
  unfold_monad.
  repeat progress (cbn; rewrite ?Hdata, ?Hcode, ?Hid, ?Hu, ?Hr, ?Hs, ?Hd).
  by rewrite <- app_assoc.
Qed.

(** X25: on every input [handleMessage] leaves the page, the loading flag
    and the error alone, never raises the connect prompt, and touches no
    storage key other than [userId], [ebay_user_token] and
    [ebay_refresh_token]. *)
Theorem handleMessage_footprint
    (user : jsval) (event_origin : string) (event_data : jsval)
    (exchanged : outcome) (now : Z) (w : world) (k : string) :
  k ≠ "userId" → k ≠ "ebay_user_token" → k ≠ "ebay_refresh_token" →
  let w' := (handleMessage user event_origin event_data exchanged now w).2 in
  localStorage w' !! k = localStorage w !! k ∧
  page (dash w') = page (dash w) ∧
  loadingListings (dash w') = loadingListings (dash w) ∧
  listingsError (dash w') = listingsError (dash w) ∧
  (needsConnection (dash w') = needsConnection (dash w)
   ∨ needsConnection (dash w') = false).
Proof.
  intros Hk1 Hk2 Hk3. cbn zeta.
  apply (logged_invariant exchange_effect
           (λ s, s.1 !! k = localStorage w !! k
                 ∧ page s.2 = page (dash w)
                 ∧ loadingListings s.2 = loadingListings (dash w)
                 ∧ listingsError s.2 = listingsError (dash w)
                 ∧ (needsConnection s.2 = needsConnection (dash w)
                    ∨ needsConnection s.2 = false)) _ w
           (handleMessage_logged user event_origin event_data exchanged now));
    [ | by repeat split; try left ].
  intros e [st [p' t' c' l' e']] He Hs.
  destruct e as [ key v | key | r | v | b | b | v | ]; cbn in *; try done.
  - destruct Hs as (Hs & Hrest). split; [ | exact Hrest ].
    destruct He as [-> | [-> | ->]]; by rewrite lookup_insert_ne.
  - subst b. destruct Hs as (? & ? & ? & ? & ?). repeat split; try done.
    by right.
Qed.

(** ** The mount-time token check, beyond the local token *)

Lemma no_local_token_invalid (w : world) (now : Z) :
  no_local_token w → ¬ local_record_valid w now.
Proof.
  intros [Hnone | Hblank]; [ by apply no_record_invalid | ].
  intros (v & e & (raw & fields & Hraw & Hne & _) & _).
  rewrite Hblank in Hraw. congruence.
Qed.

Lemma no_local_token_falsy (w : world) :
  no_local_token w →
  truthy (match localStorage w !! "ebay_user_token" with
          | Some s => VStr s
          | None => VNull
          end) = false.
Proof. by intros [-> | ->]. Qed.

Lemma falsy_no_local_token (w : world) :
  truthy (match localStorage w !! "ebay_user_token" with
          | Some s => VStr s
          | None => VNull
          end) = false →
  no_local_token w.
Proof.
  unfold no_local_token.
  destruct (localStorage w !! "ebay_user_token") as [s|]; [ | by left ].
  intros Hfalsy. right. destruct (String.eqb_spec s "") as [-> | Hne];
    [ done | ].
  apply truthy_VStr in Hne. congruence.
Qed.

(** Every run of [checkToken] for a user with an id has a first
    effect. *)
Lemma checkToken_acts
    (user : jsval) (now : Z) (resp : outcome) (now_store : Z) (w : world) :
  truthy (own_prop user "id") = true →
  ∃ e rest, trace (checkToken user now resp now_store w).2
            = trace w ++ e :: rest.
Proof.
  intros Hid. destruct (truthy_id_user _ Hid) as [Hu Hnu].
  unfold checkToken. rewrite Hu, Hid. cbn [negb orb].
  unfold mbind at 1 2. unfold M_bind, getItem.
  destruct (truthy (match localStorage w !! "ebay_user_token" with
                    | Some s => VStr s
                    | None => VNull
                    end)) eqn:Hlocal.
  - destruct w as [storage [p tok connect loading error] tr].
    cbn [localStorage] in Hlocal |- *. rewrite Hlocal.
    unfold mbind at 1. unfold M_bind. unfold setEbayToken at 1.
    unfold update_dash at 1. unfold setNeedsConnection at 1.
    unfold update_dash at 1.
    unfold try_catch, get. rewrite Hnu. unfold mbind at 1 2, mret at 1.
    unfold M_bind, M_ret.
    match goal with |- context [getValidAuthToken ?u ?n ?r ?ns ?w1] =>
      destruct (getValidAuthToken_total u n r ns w1)
        as (token & [storage2 [p2 t2 c2 l2 e2] tr2] & run & -> & _ & Ht)
    end.
    cbn in Ht. subst tr2.
    destruct (truthy token); unfold_monad; cbn;
      eexists _, _; rewrite <- !app_assoc; cbn; reflexivity.
  - pose proof (falsy_no_local_token w Hlocal) as Hno.
    pose proof (getValidAuthToken_remote (own_prop user "id") now resp
                  now_store w (no_local_token_invalid w now Hno)) as Hremote.
    destruct (remote_token_requests (own_prop user "id") resp now_store w)
      as (rest & Hrest).
    rewrite <- Hremote in Hrest.
    destruct (getValidAuthToken_total (own_prop user "id") now resp now_store
                w) as (token & w2 & run & Hrun & _ & _).
    rewrite Hrun in Hrest. cbn [snd] in Hrest.
    destruct w as [storage [p tok connect loading error] tr].
    cbn [localStorage] in Hlocal |- *. rewrite Hlocal.
    unfold mret at 1. unfold M_ret.
    unfold try_catch, get. rewrite Hnu. unfold mbind at 1 2, mret at 1.
    unfold M_bind, M_ret. rewrite Hrun.
    destruct w2 as [storage2 [p2 t2 c2 l2 e2] tr2]. cbn in Hrest. subst tr2.
    destruct (truthy token); unfold_monad; cbn;
      eexists _, _; rewrite <- !app_assoc; cbn; reflexivity.
Qed.

(** X26: [checkToken] returns with the world unchanged exactly when there
    is no user, or the user has no truthy id: for a user with an id
    every run does something, whatever is stored and however the backend
    answers. *)
Theorem checkToken_idle_iff_no_user
    (user : jsval) (now : Z) (resp : outcome) (now_store : Z) (w : world) :
  checkToken user now resp now_store w = (Normal (), w)
  ↔ truthy user = false ∨ truthy (own_prop user "id") = false.
Proof.
  split.
  - intros Hrun.
    destruct (truthy user) eqn:Hu; [ right | by left ].
    destruct (truthy (own_prop user "id")) eqn:Hid; [ exfalso | done ].
    destruct (checkToken_acts user now resp now_store w Hid)
      as (e & rest & Ht).
    rewrite Hrun in Ht. cbn [snd] in Ht.
    apply (f_equal List.length) in Ht. rewrite length_app in Ht.
    cbn in Ht. lia.
  - intros Hno. unfold checkToken.
    destruct Hno as [-> | ->]; [ done | by rewrite orb_true_r ].
Qed.

(** X27: with nothing usable in storage and a failed token-status call,
    [checkToken] sends the one request and raises the connect prompt,
    which is then shown on every route; storage and [ebayToken] are
    untouched. *)
Theorem checkToken_prompts_to_connect
    (user : jsval) (now : Z) (resp : outcome) (now_store : Z) (w : world) :
  truthy (own_prop user "id") = true →
  no_local_token w → remote_failed resp →
  let '(c, w') := checkToken user now resp now_store w in
  c = Normal () ∧
  trace w' = trace w ++
    [Network (GetEbayUserToken (own_prop user "id")); SetNeedsConnection true] ∧
  localStorage w' = localStorage w ∧
  ebayToken (dash w') = ebayToken (dash w) ∧
  ∀ pathname, Home_view (dash w') pathname = ConnectPrompt.
Proof.
  intros Hid Hno Hfail. destruct (truthy_id_user _ Hid) as [Hu Hnu].
  pose proof (no_local_token_falsy w Hno) as Hfalsy.
  pose proof (no_local_token_invalid w now Hno) as Hinv.
  pose proof (getValidAuthToken_remote (own_prop user "id") now resp now_store
                w Hinv) as Hrun.
  rewrite (remote_token_failed _ _ _ _ Hfail) in Hrun.
  destruct w as [storage [p tok connect loading error] tr].
  cbn [localStorage] in Hfalsy.
  unfold checkToken. rewrite Hu, Hid. cbn [negb orb].
  unfold mbind at 1 2. unfold M_bind, getItem. rewrite Hfalsy.
  unfold mret at 1. unfold M_ret.
  unfold try_catch, get. rewrite Hnu. unfold mbind at 1 2, mret at 1.
  unfold M_bind, M_ret. rewrite Hrun. cbn.
  unfold_monad. cbn. by rewrite <- app_assoc.
Qed.

(** X28: with nothing usable in storage and a response that grants a
    non-empty token, the validator stores the record and [checkToken]
    at once overwrites it with the bare token: the key ends up holding
    the token itself, [ebayToken] is the token and the connect prompt is
    withdrawn. *)
Theorem checkToken_overwrites_fresh_record
    (user resp : jsval) (now now_store : Z) (w : world) :
  truthy (own_prop user "id") = true →
  no_local_token w → token_granted resp = true →
  let token := own_prop (own_prop resp "data") "access_token" in
  let lifetime := own_prop (own_prop resp "data") "expires_in_seconds" in
  let record :=
    JSON_stringify
      (AccessTokenRecord token
         (VNum (num_add (Num now_store)
                  (num_mul (ToNumber lifetime) (Num 1000))))) in
  truthy token = true →
  let '(c, w') := checkToken user now (Resolve resp) now_store w in
  c = Normal () ∧
  trace w' = trace w ++
    [Network (GetEbayUserToken (own_prop user "id"));
     StorageSet "ebay_user_token" record;
     StorageSet "ebay_user_token" (ToString token);
     SetEbayToken token; SetNeedsConnection false] ∧
  localStorage w' = <["ebay_user_token" := ToString token]> (localStorage w) ∧
  ebayToken (dash w') = token ∧ needsConnection (dash w') = false.
Proof.
  intros Hid Hno Hg token lifetime record Htok.
  destruct (truthy_id_user _ Hid) as [Hu Hnu].
  pose proof (no_local_token_falsy w Hno) as Hfalsy.
  pose proof (no_local_token_invalid w now Hno) as Hinv.
  pose proof (getValidAuthToken_remote (own_prop user "id") now (Resolve resp)
                now_store w Hinv) as Hrun.
  rewrite (remote_token_granted _ _ _ _ Hg) in Hrun.
  fold token lifetime record in Hrun.
  destruct w as [storage [p tok connect loading error] tr].
  cbn [localStorage dash trace] in Hfalsy, Hrun.
  unfold checkToken. rewrite Hu, Hid. cbn [negb orb].
  unfold mbind at 1 2. unfold M_bind, getItem. rewrite Hfalsy.
  unfold mret at 1. unfold M_ret.
  unfold try_catch, get. rewrite Hnu. unfold mbind at 1 2, mret at 1.
  unfold M_bind, M_ret. rewrite Hrun. rewrite Htok.
  unfold_monad. cbn. rewrite <- !app_assoc. cbn.
  by rewrite insert_insert_eq.
Qed.

(** X29: [checkToken] never throws, whatever is stored and however the
    backend answers; it leaves the page, the loading flag and the error
    alone and touches no storage key other than [ebay_user_token]. *)
Theorem checkToken_footprint
    (user : jsval) (now : Z) (resp : outcome) (now_store : Z) (w : world)
    (k : string) :
  k ≠ "ebay_user_token" →
  let '(c, w') := checkToken user now resp now_store w in
  c = Normal () ∧
  localStorage w' !! k = localStorage w !! k ∧
  page (dash w') = page (dash w) ∧
  loadingListings (dash w') = loadingListings (dash w) ∧
  listingsError (dash w') = listingsError (dash w).
Proof.
  intros Hk.
  assert (Hc : (checkToken user now resp now_store w).1 = Normal ()).
  { unfold checkToken.
    destruct (negb (truthy user) || negb (truthy (own_prop user "id")))
      eqn:Hguard; [ done | ].
    apply orb_false_elim in Hguard as [Hu%negb_false_iff Hid%negb_false_iff].
    destruct (truthy_id_user _ Hid) as [_ Hnu].
    unfold mbind at 1 2. unfold M_bind, getItem.
    destruct w as [storage d tr].
    match goal with |- context [truthy ?v] =>
      generalize v; intros localToken
    end.
    match goal with |- context [(if truthy localToken then ?m else _) ?w0] =>
      assert (Hshow : ∃ w1, (if truthy localToken then m else mret ()) w0
                            = (Normal (), w1))
        by (destruct (truthy localToken), d; unfold_monad; by eexists)
    end.
    destruct Hshow as (w1 & ->).
    unfold try_catch, get. rewrite Hnu. unfold mbind at 1 2, mret at 1.
    unfold M_bind, M_ret.
    destruct (getValidAuthToken_total (own_prop user "id") now resp now_store
                w1) as (token & w2 & run & -> & _ & _).
    destruct w2 as [storage2 [p2 t2 c2 l2 e2] tr2].
    destruct (truthy token); [ by unfold_monad | ].
    destruct (truthy localToken); by unfold_monad. }
  pose proof (logged_invariant check_effect
           (λ s, s.1 !! k = localStorage w !! k
                 ∧ page s.2 = page (dash w)
                 ∧ loadingListings s.2 = loadingListings (dash w)
                 ∧ listingsError s.2 = listingsError (dash w)) _ w
           (checkToken_logged user now resp now_store)) as Hinv.
  destruct (checkToken user now resp now_store w) as [c w'].
  cbn [fst snd] in *. split; [ exact Hc | ].
  apply Hinv; [ | done ].
  intros e [st [p' t' c' l' e']] He Hs.
  destruct e as [ key v | key | r | v | b | b | v | ]; cbn in *; try done.
  subst key. by rewrite lookup_insert_ne.
Qed.

End Properties.

(** * The reference browser reads back what the handlers write

    On the reference browser the JSON text of a record whose value is a
    string and whose expiry is an integer parses back to that record, so
    the records written by [getValidAuthToken], [handleMessage] and
    [fetchListings] are stored records in the sense of the validator. *)

Section RoundTrip.
Import Reference.

Lemma append_String (c : ascii) (a b : string) :
  String c a +:+ b = String c (a +:+ b).
Proof. reflexivity. Qed.

Lemma append_empty (b : string) : "" +:+ b = b.
Proof. reflexivity. Qed.

Lemma append_assoc (a b c : string) : (a +:+ b) +:+ c = a +:+ (b +:+ c).
Proof.
  induction a as [ | x a IH ]; [ reflexivity | ].
  rewrite !append_String. by f_equal.
Qed.

Ltac expose := rewrite ?append_String, ?append_empty.

Ltac eval_N :=
  repeat match goal with
  | |- context [N.eqb ?a ?b] =>
      let v := eval vm_compute in (N.eqb a b) in change (N.eqb a b) with v
  | |- context [N.ltb ?a ?b] =>
      let v := eval vm_compute in (N.ltb a b) in change (N.ltb a b) with v
  | |- context [N.leb ?a ?b] =>
      let v := eval vm_compute in (N.leb a b) in change (N.leb a b) with v
  end.

(** One escaped character is read back as the character. *)
Lemma read_string_escape_char (c : ascii) (rest : string) :
  read_string (escape_char c +:+ rest)
  = '(body, tail) ← read_string rest; Some (String c body, tail).
Proof.
  destruct c as [[] [] [] [] [] [] [] []];
  match goal with |- context [escape_char ?c] =>
    let v := eval vm_compute in (escape_char c) in
    change (escape_char c) with v
  end; expose; cbn; eval_N; cbn; eval_N; cbn; try reflexivity.
Qed.

(** A quoted string is read back as the string. *)
Lemma read_string_escape (s rest : string) :
  read_string (escape s +:+ String dquote rest) = Some (s, rest).
Proof.
  induction s as [ | c s IH ]; [ reflexivity | ].
  cbn [escape]. rewrite append_assoc, read_string_escape_char, IH.
  reflexivity.
Qed.

Ltac eval_digit :=
  match goal with
  | |- context [digit_of (Ascii ?a ?b ?c ?d ?e ?f ?g ?h)] =>
      let v := eval vm_compute in (digit_of (Ascii a b c d e f g h)) in
      change (digit_of (Ascii a b c d e f g h)) with v
  end.

(** Reading the digits of [d] after those already folded into [acc]. *)
Lemma read_digits_uint
    (d : Decimal.uint) (acc : positive) (c : ascii) (rest : string) :
  digit_of c = None →
  read_digits (Zpos acc) (NilEmpty.string_of_uint d +:+ String c rest)
  = (Zpos (Pos.of_uint_acc d acc), String c rest).
Proof.
  intros Hc. revert acc.
  induction d; intros acc;
    cbn [NilEmpty.string_of_uint Pos.of_uint_acc]; expose;
    cbn [read_digits]; [ by rewrite Hc | .. ];
    eval_digit; cbv iota; rewrite <- IHd; f_equal; lia.
Qed.

(** The decimal digits of a positive number start with a non-zero digit. *)
Lemma to_uint_normal (p : positive) :
  Pos.to_uint p ≠ Decimal.Nil ∧ ∀ d, Pos.to_uint p ≠ Decimal.D0 d.
Proof.
  split; [ apply DecimalPos.Unsigned.to_uint_nonnil | ]. intros d Hd.
  pose proof (DecimalPos.Unsigned.to_of (Pos.to_uint p)) as Hnorm.
  rewrite DecimalPos.Unsigned.of_to in Hnorm. cbn [N.to_uint] in Hnorm.
  destruct (Decimal.uint_eq_dec (Decimal.nzhead (Pos.to_uint p)) Decimal.Nil)
    as [Hnil | Hnn].
  - apply DecimalFacts.unorm_0 in Hnil. rewrite <- Hnorm in Hnil.
    by apply (DecimalPos.Unsigned.to_uint_nonzero p).
  - rewrite (DecimalFacts.unorm_nzhead _ Hnn) in Hnorm. rewrite Hd in Hnorm at 1.
    by apply (DecimalFacts.nzhead_nonzero (Pos.to_uint p) d).
Qed.

(** The decimal spelling of a positive number is read back as it. *)
Lemma read_int_pos (p : positive) (c : ascii) (rest : string) :
  digit_of c = None →
  read_int (NilEmpty.string_of_uint (Pos.to_uint p) +:+ String c rest)
  = Some (Zpos p, String c rest).
Proof.
  intros Hc. destruct (to_uint_normal p) as [Hnil Hzero].
  pose proof (DecimalPos.Unsigned.of_to p) as Hof.
  destruct (Pos.to_uint p) as [ | d | d | d | d | d | d | d | d | d | d ];
    [ done | by destruct (Hzero d) | .. ];
    cbn [NilEmpty.string_of_uint]; expose; cbn [read_int]; eval_digit;
    cbv iota; rewrite (read_digits_uint d _ c rest Hc);
    cbn [Pos.of_uint] in Hof; by injection Hof as ->.
Qed.

Lemma decimal_pos (p : positive) :
  decimal (Zpos p) = NilEmpty.string_of_uint (Pos.to_uint p).
Proof.
  unfold decimal. cbn [Z.to_int NilZero.string_of_int NilZero.string_of_uint].
  destruct (to_uint_normal p) as [Hnil _].
  by destruct (Pos.to_uint p).
Qed.

Lemma decimal_neg (p : positive) :
  decimal (Zneg p) = String "-" (NilEmpty.string_of_uint (Pos.to_uint p)).
Proof.
  unfold decimal. cbn [Z.to_int NilZero.string_of_int NilZero.string_of_uint].
  destruct (to_uint_normal p) as [Hnil _].
  by destruct (Pos.to_uint p).
Qed.

Lemma uint_head (d : Decimal.uint) :
  d ≠ Decimal.Nil →
  ∃ a tl, NilEmpty.string_of_uint d = String a tl ∧ digit_of a ≠ None.
Proof.
  intros Hd. destruct d; [ done | .. ]; cbn [NilEmpty.string_of_uint];
    eexists _, _; (split; [ reflexivity | vm_compute; discriminate ]).
Qed.

(** A text that starts with a digit is read as an unsigned number. *)
Lemma read_number_unsigned (a : ascii) (tl : string) :
  digit_of a ≠ None →
  read_number (String a tl)
  = '(n, rest) ← read_int (String a tl);
    if starts_fraction_or_exponent rest then None
    else Some (VNum (Num (1 * n)), rest).
Proof.
  intros Ha.
  destruct a as [[] [] [] [] [] [] [] []];
    first [ by vm_compute in Ha; destruct Ha | reflexivity ].
Qed.

(** A value that starts with a digit or a minus sign is a number. *)
Lemma read_value_number (fuel : nat) (a : ascii) (tl : string) :
  digit_of a ≠ None ∨ a = "-"%char →
  read_value (S fuel) (String a tl) = read_number (String a tl).
Proof.
  intros [Ha | ->]; [ | reflexivity ].
  destruct a as [[] [] [] [] [] [] [] []];
    first [ by vm_compute in Ha; destruct Ha | reflexivity ].
Qed.

Lemma read_number_decimal (z : Z) (c : ascii) (rest : string) :
  ends_number c →
  read_number (decimal z +:+ String c rest)
  = Some (VNum (Num z), String c rest).
Proof.
  intros [Hc Hfe]. cbn in Hfe. destruct z as [ | p | p ].
  - change (decimal 0) with "0". expose. unfold read_number, read_int.
    cbn. eval_digit. cbv iota. rewrite Hc. cbn. by rewrite Hfe.
  - rewrite decimal_pos.
    destruct (uint_head (Pos.to_uint p)) as (a & tl & Hs & Ha);
      [ apply DecimalPos.Unsigned.to_uint_nonnil | ].
    pose proof (read_int_pos p c rest Hc) as Hint.
    rewrite Hs in Hint |- *. expose. rewrite append_String in Hint.
    rewrite (read_number_unsigned a _ Ha), Hint. cbn. by rewrite Hfe.
  - rewrite decimal_neg. expose. unfold read_number.
    cbn. rewrite (read_int_pos p c rest Hc). cbn. by rewrite Hfe.
Qed.

Lemma decimal_head (z : Z) :
  ∃ a tl, decimal z = String a tl ∧ (digit_of a ≠ None ∨ a = "-"%char).
Proof.
  destruct z as [ | p | p ].
  - exists "0"%char, "". split; [ reflexivity | left; vm_compute; discriminate ].
  - rewrite decimal_pos.
    destruct (uint_head (Pos.to_uint p)) as (a & tl & Hs & Ha);
      [ apply DecimalPos.Unsigned.to_uint_nonnil | ].
    exists a, tl. auto.
  - rewrite decimal_neg. eexists _, _. split; [ reflexivity | by right ].
Qed.

Lemma skip_ws_head (c : ascii) (rest : string) :
  is_ws c = false → skip_ws (String c rest) = String c rest.
Proof. intros Hc. cbn [skip_ws]. by rewrite Hc. Qed.

Ltac skip := rewrite ?skip_ws_head by (vm_compute; reflexivity).

Ltac go_with unfolding :=
  repeat (progress (unfolding;
    cbn [Ascii.eqb Bool.eqb andb mbind option_bind set_field String.eqb
         dquote backslash];
    skip)).

Ltac go := go_with ltac:(cbn [read_value read_members]).
Ltac go_on := go_with ltac:(idtac).

(** The reference browser reads back a record whose value is a string
    and whose expiry is an integer. *)
Theorem parse_stringify_record (value : string) (expiry : Z) :
  parse (stringify (AccessTokenRecord (VStr value) (VNum (Num expiry))))
  = Some (AccessTokenRecord (VStr value) (VNum (Num expiry))).
Proof.
  unfold parse.
  set (text := stringify _).
  assert (Htext : text =
    String "{" (String dquote ("value" +:+ String dquote (String ":"
      (String dquote (escape value +:+ String dquote (String ","
        (String dquote ("expiry" +:+ String dquote (String ":"
           (decimal expiry +:+ "}"))))))))))).
  { unfold text, AccessTokenRecord. cbn [stringify String.concat].
    unfold quote.
    change (escape "value") with "value".
    change (escape "expiry") with "expiry".
    repeat first [ rewrite append_assoc | rewrite append_String
                 | rewrite append_empty ].
    reflexivity. }
  rewrite Htext. clear text Htext.
  match goal with |- context [read_value ?f _] =>
    assert (Hfuel : ∃ k, f = (4 + k)%nat)
      by (cbn [String.length];
          match goal with |- ∃ k, (2 * S ?n + 2 = _)%nat =>
            exists (2 * n)%nat; lia
          end)
  end.
  destruct Hfuel as (k & ->).
  destruct (decimal_head expiry) as (a & tl & Hd & Ha).
  assert (Hend : ends_number "}") by (split; vm_compute; reflexivity).
  pose proof (read_number_decimal expiry "}" "" Hend) as Hnum.
  rewrite Hd in Hnum |- *. rewrite append_String in Hnum.
  change (4 + k)%nat with (S (S (S (S k)))).
  remember (S k) as fuel eqn:Hfuel. go.
  change ("value" +:+ ?x) with (escape "value" +:+ x).
  rewrite read_string_escape. go. rewrite read_string_escape. go.
  change ("expiry" +:+ ?x) with (escape "expiry" +:+ x).
  rewrite read_string_escape. go_on. subst fuel.
  rewrite append_String, (read_value_number _ _ _ Ha), Hnum. go_on.
  reflexivity.
Qed.

(** A key that holds the text of such a record holds a stored record. *)
Corollary written_record_stored (w : world) (value : string) (expiry : Z) :
  localStorage w !! "ebay_user_token"
  = Some (JSON_stringify (AccessTokenRecord (VStr value) (VNum (Num expiry)))) →
  stored_record w (VStr value) (VNum (Num expiry)).
Proof.
  intros Hraw. eexists _, _. split; [ exact Hraw | ].
  split; [ discriminate | ]. split; [ apply parse_stringify_record | done ].
Qed.

(** What the validator stores it later reads: once the backend has
    granted a non-empty token for a lifetime in seconds, every call
    before the expiry answers that token from storage and sends
    nothing. *)
Theorem granted_token_is_reused
    (userId : jsval) (token : string) (lifetime : Z)
    (now now_store later later_store : Z) (resp : outcome) (w : world) :
  ¬ local_record_valid w now → token ≠ "" →
  later < now_store + lifetime * 1000 →
  let granted :=
    VObj [("success", VBool true);
          ("data", VObj [("access_token", VStr token);
                         ("expires_in_seconds", VNum (Num lifetime))])] in
  let '(first, w1) :=
    getValidAuthToken userId now (Resolve granted) now_store w in
  let '(second, w2) :=
    getValidAuthToken userId later resp later_store w1 in
  first = Normal (VStr token) ∧ second = Normal (VStr token) ∧ w2 = w1.
Proof.
  intros Hinv Htok Hlater granted.
  rewrite (getValidAuthToken_remote _ _ _ _ _ Hinv).
  destruct w as [storage d tr]. unfold remote_token, granted.
  unfold mbind, M_bind, mret, M_ret, try_catch, await, setItem, emit. cbn.
  match goal with |- context [getValidAuthToken _ _ _ _ ?w1] =>
    rewrite (getValidAuthToken_local userId (VStr token)
               (now_store + lifetime * 1000) later resp later_store w1)
  end; [ done | | done | by apply truthy_VStr ].
  apply written_record_stored. cbn. apply lookup_insert_eq.
Qed.

End RoundTrip.

(** * The scenarios, run *)

Import Scenario.

Lemma connected_record :
  stored_record connected (VStr "abc") (VNum (Num 2000000)).
Proof.
  exists record_abc, [("value", VStr "abc"); ("expiry", VNum (Num 2000000))].
  split; [ vm_compute; reflexivity | ].
  split; [ vm_compute; discriminate | ].
  split; [ vm_compute; reflexivity | ].
  split; reflexivity.
Defined.

(** Scenario A: the stored record answers, with no network call. *)
Example scenario_A :
  getValidAuthToken (VStr "u1") 1000000 (Reject network_error) 1000000
    connected
  = (Normal (VStr "abc"), connected).
Proof. vm_compute. reflexivity. Qed.

(** Scenario B: nothing stored, the backend grants [xyz] for an hour. *)
Example scenario_B :
  let '(c, w') :=
    getValidAuthToken (VStr "u1") 1000000 (Resolve token_status_xyz) 1000005
      fresh in
  c = Normal (VStr "xyz") ∧
  localStorage w' !! "ebay_user_token"
  = Some (Reference.stringify
            (AccessTokenRecord (VStr "xyz") (VNum (Num 4600005)))) ∧
  trace w'
  = [Network (GetEbayUserToken (VStr "u1"));
     StorageSet "ebay_user_token"
       (Reference.stringify
          (AccessTokenRecord (VStr "xyz") (VNum (Num 4600005))))].
Proof. vm_compute. done. Qed.

(** What scenario B stored is what scenario A reads: a second call
    before the expiry answers [xyz] from storage and adds no request. *)
Example scenario_B_then_A :
  let w1 :=
    (getValidAuthToken (VStr "u1") 1000000 (Resolve token_status_xyz) 1000005
       fresh).2 in
  let '(c, w2) :=
    getValidAuthToken (VStr "u1") 4600004 (Reject network_error) 4600004 w1 in
  c = Normal (VStr "xyz") ∧ trace w2 = trace w1.
Proof. vm_compute. done. Qed.

(** A trusted popup message: the code is exchanged, the record (two
    hours by default), the refresh token and the user id are stored and
    the dashboard is connected. *)
Example scenario_exchange :
  let exchanged :=
    VObj [("success", VBool true);
          ("data", VObj [("access_token", VStr "tok");
                         ("refresh_token", VStr "r2")])] in
  let '(c, w') :=
    handleMessage alice window_location_origin
      (VObj [("code", VStr "c1"); ("state", VStr "s1")])
      (Resolve exchanged) 1000000 fresh in
  c = Normal () ∧
  trace w'
  = [Network (ExchangeCode (VStr "c1") (VStr "u1"));
     StorageSet "userId" "u1";
     StorageSet "ebay_user_token"
       (Reference.stringify
          (AccessTokenRecord (VStr "tok") (VNum (Num 8200000))));
     StorageSet "ebay_refresh_token" "r2";
     SetEbayToken (VStr "tok"); SetNeedsConnection false] ∧
  ebayToken (dash w') = VStr "tok" ∧ needsConnection (dash w') = false.
Proof. vm_compute. done. Qed.

(** Scenario C: the coded 932 failure followed by a refused refresh. *)
Example scenario_C :
  let '(c, w') :=
    fetchListings alice (Resolve expired_listings) (Resolve refused) 1000000
      connected in
  c = Normal () ∧ localStorage w' = ∅ ∧
  dash w' = {| page := 1; ebayToken := VNull; needsConnection := true;
               loadingListings := false; listingsError := VNull |}.
Proof. vm_compute. done. Qed.

(** Scenario D: the listings call throws a 401. *)
Example scenario_D :
  end_state
    (fetchListings alice (Reject unauthorized) (Resolve refused) 1000000
       connected).2
  = end_state
      (fetchListings alice (Resolve expired_listings) (Resolve refused)
         1000000 connected).2.
Proof. vm_compute. reflexivity. Qed.

(** P4: a refresh that grants [xyz] is followed by one more run of the
    effect; when that run's listings call succeeds the token stays and
    the effect rests.  Two listings requests in all. *)
Example scenario_P4 :
  let w1 :=
    (listings_effect alice (VStr "abc") (Resolve expired_listings)
       (Resolve (granted "xyz" 3600)) 1000000 connected).2 in
  let w2 :=
    (listings_effect alice (ebayToken (dash w1))
       (Resolve (VObj [("success", VBool true)])) (Reject network_error)
       1000500 w1).2 in
  listings_effect_reruns (VStr "abc") (trace w1) = true ∧
  ebayToken (dash w1) = VStr "xyz" ∧
  listings_effect_reruns (VStr "xyz") (drop (List.length (trace w1)) (trace w2))
  = false ∧
  listings_requests (trace w2) = 2%nat ∧
  listingsError (dash w2) = VNull ∧ loadingListings (dash w2) = false.
Proof. vm_compute. done. Qed.

(** A failed response whose [error] is an object: the object becomes
    [listingsError], and the render of the error line throws. *)
Example scenario_structured_error :
  let w' :=
    (fetchListings alice (Resolve structured_error) (Reject network_error)
       1000000 connected).2 in
  listingsError (dash w') = VObj [("code", VStr "E42")] ∧
  Home_view (dash w') "/home" = RenderThrows (VObj [("code", VStr "E42")]) ∧
  Home_view (dash w') "/orders" = Chrome None.
Proof. vm_compute. done. Qed.

(** A listings call rejected with a 401 for no user at all: the same
    teardown. *)
Example scenario_D_without_user :
  let '(c, w') :=
    fetchListings VNull (Reject unauthorized) (Resolve refused) 1000000
      connected in
  c = Normal () ∧ localStorage w' = ∅ ∧
  dash w' = {| page := 1; ebayToken := VNull; needsConnection := true;
               loadingListings := false; listingsError := VNull |}.
Proof. vm_compute. done. Qed.

(** ** The theorems at the scenarios *)

Lemma handleMessage_foreign_origin_witness :
  "https://evil.example" ≠ window_location_origin ∧
  handleMessage alice "https://evil.example" (VObj [("code", VStr "c1")])
    (Resolve (granted "xyz" 3600)) 1000000 connected
  = (Normal (), connected).
Proof.
  assert (Hne : "https://evil.example" ≠ window_location_origin)
    by (vm_compute; discriminate).
  split; [ exact Hne | ].
  exact (handleMessage_foreign_origin alice "https://evil.example"
           (VObj [("code", VStr "c1")]) (Resolve (granted "xyz" 3600))
           1000000 connected Hne).
Defined.

Lemma getValidAuthToken_local_first_witness :
  stored_record connected (VStr "abc") (VNum (Num 2000000)) ∧
  "abc" ≠ "" ∧ 1000000 < 2000000 ∧ 1500000 < 2000000 ∧
  let '(first, w1) :=
    getValidAuthToken (VStr "u1") 1000000 (Reject network_error) 1000000
      connected in
  let '(second, w2) :=
    getValidAuthToken (VStr "u1") 1500000 (Reject network_error) 1500000 w1 in
  first = Normal (VStr "abc") ∧ second = Normal (VStr "abc") ∧
  w1 = connected ∧ w2 = connected ∧ trace w2 = trace connected.
Proof.
  assert (Hne : "abc" ≠ "") by discriminate.
  assert (H1 : 1000000 < 2000000) by lia.
  assert (H2 : 1500000 < 2000000) by lia.
  split; [ exact connected_record | ].
  split; [ exact Hne | ]. split; [ exact H1 | ]. split; [ exact H2 | ].
  exact (getValidAuthToken_local_first (VStr "u1") "abc" 2000000
           1000000 1500000 (Reject network_error) (Reject network_error)
           1000000 1500000 connected connected_record Hne H1 H2).
Defined.

Lemma lapsed_record :
  stored_record lapsed (VStr "abc") (VNum (Num (1999999 - 1))).
Proof.
  exists (Reference.stringify
            (AccessTokenRecord (VStr "abc") (VNum (Num 1999998)))),
         [("value", VStr "abc"); ("expiry", VNum (Num 1999998))].
  split; [ vm_compute; reflexivity | ].
  split; [ vm_compute; discriminate | ].
  split; [ vm_compute; reflexivity | ].
  split; reflexivity.
Defined.

Lemma getValidAuthToken_expiry_boundary_witness :
  "abc" ≠ "" ∧
  stored_record connected (VStr "abc") (VNum (Num 2000000)) ∧
  (1999999 < 2000000 ∧
   getValidAuthToken (VStr "u1") 1999999 (Resolve token_status_xyz) 2000004
     connected
   = (Normal (VStr "abc"), connected)) ∧
  (2000000 ≤ 2000000 ∧
   getValidAuthToken (VStr "u1") 2000000 (Resolve token_status_xyz) 2000004
     connected
   = remote_token (VStr "u1") (Resolve token_status_xyz) 2000004 connected ∧
   ∃ rest,
     trace (getValidAuthToken (VStr "u1") 2000000 (Resolve token_status_xyz)
              2000004 connected).2
     = trace connected ++ Network (GetEbayUserToken (VStr "u1")) :: rest) ∧
  (2000000 ≤ 2000001 ∧
   getValidAuthToken (VStr "u1") 2000001 (Resolve token_status_xyz) 2000004
     connected
   = remote_token (VStr "u1") (Resolve token_status_xyz) 2000004 connected ∧
   ∃ rest,
     trace (getValidAuthToken (VStr "u1") 2000001 (Resolve token_status_xyz)
              2000004 connected).2
     = trace connected ++ Network (GetEbayUserToken (VStr "u1")) :: rest).
Proof.
  assert (Hne : "abc" ≠ "") by discriminate.
  assert (Hahead : 1999999 < 2000000) by lia.
  assert (Hat : 2000000 ≤ 2000000) by lia.
  assert (Hbehind : 2000000 ≤ 2000001) by lia.
  split; [ exact Hne | ]. split; [ exact connected_record | ].
  split; [ split; [ exact Hahead | ] | split; split ].
  - exact (proj1 (getValidAuthToken_expiry_boundary (VStr "u1") "abc" 2000000
                    connected Hne connected_record 1999999
                    (Resolve token_status_xyz) 2000004) Hahead).
  - exact Hat.
  - exact (proj2 (getValidAuthToken_expiry_boundary (VStr "u1") "abc" 2000000
                    connected Hne connected_record 2000000
                    (Resolve token_status_xyz) 2000004) Hat).
  - exact Hbehind.
  - exact (proj2 (getValidAuthToken_expiry_boundary (VStr "u1") "abc" 2000000
                    connected Hne connected_record 2000001
                    (Resolve token_status_xyz) 2000004) Hbehind).
Defined.

Lemma bare_invalid : ¬ local_record_valid bare 1000000.
Proof.
  apply (malformed_record_invalid bare "abc"); vm_compute; reflexivity.
Defined.

Lemma getValidAuthToken_fails_closed_witness :
  ¬ local_record_valid bare 1000000 ∧
  remote_failed (Reject network_error) ∧
  getValidAuthToken (VStr "u1") 1000000 (Reject network_error) 1000000 bare
  = (Normal VNull, emit (Network (GetEbayUserToken (VStr "u1"))) bare).
Proof.
  split; [ exact bare_invalid | ].
  split; [ exact (failed_thrown network_error) | ].
  exact (getValidAuthToken_fails_closed (VStr "u1") 1000000
           (Reject network_error) 1000000 bare bare_invalid
           (failed_thrown network_error)).
Defined.

Lemma expired_listings_932 : token_expired_932 expired_listings.
Proof. split; vm_compute; reflexivity. Defined.

Lemma alice_signed_in : signed_in alice.
Proof. reflexivity. Defined.

Lemma refresh_then_retry_witness :
  signed_in alice ∧ truthy (VStr "abc") = true ∧
  token_expired_932 expired_listings ∧
  refresh_granted (granted "xyz" 3600) = true ∧
  Object_is (VStr "abc") (VStr "xyz") = false ∧
  let access_token := VStr "xyz" in
  let record :=
    JSON_stringify (AccessTokenRecord access_token (VNum (Num 4600000))) in
  let run :=
    [SetLoadingListings true; SetListingsError VNull;
     Network GetActiveListings; Network (RefreshEbayUserToken (VStr "u1"));
     StorageSet "ebay_user_token" record;
     SetEbayToken access_token; SetLoadingListings false] in
  let '(c, w') :=
    listings_effect alice (VStr "abc") (Resolve expired_listings)
      (Resolve (granted "xyz" 3600)) 1000000 connected in
  c = Normal () ∧
  trace w' = trace connected ++ run ∧
  localStorage w'
  = <["ebay_user_token" := record]> (localStorage connected) ∧
  ebayToken (dash w') = access_token ∧
  listings_requests run = 1%nat ∧
  listings_effect_reruns (VStr "abc") run = true ∧
  ∀ (listings' refresh' : outcome) (now' : Z),
    listings_requests
      (effects_of (listings_effect alice access_token listings' refresh' now')
         w')
    = 1%nat.
Proof.
  assert (Htok : truthy (VStr "abc") = true) by reflexivity.
  assert (Hgr : refresh_granted (granted "xyz" 3600) = true) by reflexivity.
  assert (Hnew : Object_is (VStr "abc") (VStr "xyz") = false) by reflexivity.
  split; [ exact alice_signed_in | ]. split; [ exact Htok | ].
  split; [ exact expired_listings_932 | ]. split; [ exact Hgr | ].
  split; [ exact Hnew | ].
  exact (refresh_then_retry alice (VStr "abc") expired_listings
           (granted "xyz" 3600) 1000000 connected alice_signed_in Htok
           expired_listings_932 Hgr Hnew).
Defined.

Lemma refresh_failure_teardown_witness :
  signed_in alice ∧ token_expired_932 expired_listings ∧
  refresh_denied (Resolve refused) ∧
  let '(c, w') :=
    fetchListings alice (Resolve expired_listings) (Resolve refused) 1000000
      connected in
  c = Normal () ∧ torn_down w' ∧ loadingListings (dash w') = false.
Proof.
  assert (Hden : refresh_denied (Resolve refused))
    by (apply denied_response; reflexivity).
  split; [ exact alice_signed_in | ]. split; [ exact expired_listings_932 | ].
  split; [ exact Hden | ].
  exact (refresh_failure_teardown alice expired_listings (Resolve refused)
           1000000 connected alice_signed_in expired_listings_932 Hden).
Defined.

Lemma unauthorized_teardown_witness :
  carries_401 unauthorized = true ∧ signed_in alice ∧
  token_expired_932 expired_listings ∧ refresh_denied (Resolve refused) ∧
  let '(c, w') :=
    fetchListings alice (Reject unauthorized) (Resolve refused) 1000000
      connected in
  c = Normal () ∧ torn_down w' ∧
  trace w' = trace connected ++
    [SetLoadingListings true; SetListingsError VNull;
     Network GetActiveListings;
     StorageRemove "ebay_user_token"; StorageRemove "ebay_refresh_token";
     SetEbayToken VNull; SetNeedsConnection true; SetListingsError VNull;
     SetLoadingListings false] ∧
  end_state w'
  = end_state
      (fetchListings alice (Resolve expired_listings) (Resolve refused)
         1000000 connected).2.
Proof.
  assert (H401 : carries_401 unauthorized = true) by reflexivity.
  assert (Hden : refresh_denied (Resolve refused))
    by (apply denied_response; reflexivity).
  split; [ exact H401 | ]. split; [ exact alice_signed_in | ].
  split; [ exact expired_listings_932 | ]. split; [ exact Hden | ].
  pose proof (unauthorized_teardown alice unauthorized (Resolve refused)
                1000000 connected H401) as Hrun.
  destruct (fetchListings alice (Reject unauthorized) (Resolve refused)
              1000000 connected) as [c w'].
  destruct Hrun as (Hc & Htorn & Htrace & Hsame).
  split; [ exact Hc | ]. split; [ exact Htorn | ]. split; [ exact Htrace | ].
  exact (Hsame expired_listings (Resolve refused) 1000000 alice_signed_in
           expired_listings_932 Hden).
Defined.

Lemma checkToken_shows_local_token_witness :
  truthy (own_prop alice "id") = true ∧
  localStorage bare !! "ebay_user_token" = Some "abc" ∧ "abc" ≠ "" ∧
  let validated :=
    (getValidAuthToken (own_prop alice "id") 1000000 (Reject network_error)
       1000000 (local_token_shown "abc" bare)).1 in
  let '(c, w') :=
    checkToken alice 1000000 (Reject network_error) 1000000 bare in
  c = Normal () ∧
  (∃ rest, trace w' = trace bare ++
             SetEbayToken (VStr "abc") :: SetNeedsConnection false :: rest) ∧
  needsConnection (dash w') = false ∧
  ebayToken (dash w')
  = match validated with
    | Normal token => if truthy token then token else VStr "abc"
    | Throw _ => VStr "abc"
    end.
Proof.
  assert (Hid : truthy (own_prop alice "id") = true) by reflexivity.
  assert (Hraw : localStorage bare !! "ebay_user_token" = Some "abc")
    by (vm_compute; reflexivity).
  assert (Hne : "abc" ≠ "") by discriminate.
  split; [ exact Hid | ]. split; [ exact Hraw | ]. split; [ exact Hne | ].
  exact (checkToken_shows_local_token alice "abc" 1000000
           (Reject network_error) 1000000 bare Hid Hraw Hne).
Defined.

Lemma checkToken_replaces_record_by_bare_token_witness :
  truthy (own_prop alice "id") = true ∧
  stored_record connected (VStr "abc") (VNum (Num 2000000)) ∧
  "abc" ≠ "" ∧ 1000000 < 2000000 ∧ JSON_parse "abc" = None ∧
  let '(c, w') :=
    checkToken alice 1000000 (Reject network_error) 1000000 connected in
  c = Normal () ∧
  localStorage w' !! "ebay_user_token" = Some "abc" ∧
  StorageSet "ebay_user_token" "abc" ∈ trace w' ∧
  ¬ (∃ v e, stored_record w' v e) ∧
  ¬ local_record_valid w' 1000000.
Proof.
  assert (Hid : truthy (own_prop alice "id") = true) by reflexivity.
  assert (Hne : "abc" ≠ "") by discriminate.
  assert (Hlt : 1000000 < 2000000) by lia.
  assert (Hbad : JSON_parse "abc" = None) by (vm_compute; reflexivity).
  split; [ exact Hid | ]. split; [ exact connected_record | ].
  split; [ exact Hne | ]. split; [ exact Hlt | ]. split; [ exact Hbad | ].
  exact (checkToken_replaces_record_by_bare_token alice "abc" 2000000 1000000
           (Reject network_error) 1000000 connected Hid connected_record
           Hne Hlt Hbad).
Defined.

(** ** The further properties at the scenarios *)

Lemma fetchListings_spares_other_keys_witness :
  "theme" ≠ "ebay_user_token" ∧ "theme" ≠ "ebay_refresh_token" ∧
  localStorage
    (fetchListings alice (Reject unauthorized) (Resolve refused) 1000000
       settled).2 !! "theme"
  = localStorage settled !! "theme".
Proof.
  assert (H1 : "theme" ≠ "ebay_user_token") by discriminate.
  assert (H2 : "theme" ≠ "ebay_refresh_token") by discriminate.
  split; [ exact H1 | ]. split; [ exact H2 | ].
  exact (fetchListings_spares_other_keys alice (Reject unauthorized)
           (Resolve refused) 1000000 settled "theme" H1 H2).
Defined.

Lemma fetchListings_success_witness :
  truthy (own_prop success_only "success") = true ∧
  let run :=
    [SetLoadingListings true; SetListingsError VNull;
     Network GetActiveListings; SetLoadingListings false] in
  let '(c, w') :=
    fetchListings alice (Resolve success_only) (Reject network_error) 1000000
      connected in
  c = Normal () ∧ trace w' = trace connected ++ run ∧
  localStorage w' = localStorage connected ∧
  dash w' = {| page := page (dash connected);
               ebayToken := ebayToken (dash connected);
               needsConnection := needsConnection (dash connected);
               loadingListings := false; listingsError := VNull |} ∧
  listings_effect_reruns (ebayToken (dash connected)) run = false.
Proof.
  assert (Hs : truthy (own_prop success_only "success") = true)
    by reflexivity.
  split; [ exact Hs | ].
  exact (fetchListings_success alice success_only (Reject network_error)
           1000000 connected Hs).
Defined.

Lemma fetchListings_plain_failure_witness :
  nullish rate_limited = false ∧
  truthy (own_prop rate_limited "success") = false ∧
  strict_eq_num
    (get_opt (elem0_opt (own_prop rate_limited "errors")) "errorId") 932
  = false ∧
  let message :=
    js_or (own_prop rate_limited "error") (VStr "Failed to load listings.") in
  let '(c, w') :=
    fetchListings alice (Resolve rate_limited) (Reject network_error) 1000000
      connected in
  c = Normal () ∧
  trace w' = trace connected ++
    [SetLoadingListings true; SetListingsError VNull;
     Network GetActiveListings; SetListingsError message;
     SetLoadingListings false] ∧
  localStorage w' = localStorage connected ∧
  dash w' = {| page := page (dash connected);
               ebayToken := ebayToken (dash connected);
               needsConnection := needsConnection (dash connected);
               loadingListings := false; listingsError := message |}.
Proof.
  assert (Hn : nullish rate_limited = false) by reflexivity.
  assert (Hs : truthy (own_prop rate_limited "success") = false)
    by reflexivity.
  assert (H932 : strict_eq_num
            (get_opt (elem0_opt (own_prop rate_limited "errors")) "errorId")
            932 = false) by reflexivity.
  split; [ exact Hn | ]. split; [ exact Hs | ]. split; [ exact H932 | ].
  exact (fetchListings_plain_failure alice rate_limited
           (Reject network_error) 1000000 connected Hn Hs H932).
Defined.

Lemma fetchListings_other_error_witness :
  nullish network_error = false ∧ carries_401 network_error = false ∧
  let message :=
    js_or (own_prop network_error "message")
          (VStr "Error loading listings.") in
  let '(c, w') :=
    fetchListings alice (Reject network_error) (Resolve refused) 1000000
      connected in
  c = Normal () ∧
  trace w' = trace connected ++
    [SetLoadingListings true; SetListingsError VNull;
     Network GetActiveListings; SetListingsError message;
     SetLoadingListings false] ∧
  localStorage w' = localStorage connected ∧
  dash w' = {| page := page (dash connected);
               ebayToken := ebayToken (dash connected);
               needsConnection := needsConnection (dash connected);
               loadingListings := false; listingsError := message |}.
Proof.
  assert (Hn : nullish network_error = false) by reflexivity.
  assert (H401 : carries_401 network_error = false) by reflexivity.
  split; [ exact Hn | ]. split; [ exact H401 | ].
  exact (fetchListings_other_error alice network_error (Resolve refused)
           1000000 connected Hn H401).
Defined.

Lemma fetchListings_nullish_error_escapes_witness :
  nullish VUndef = true ∧
  let '(c, w') :=
    fetchListings alice (Reject VUndef) (Resolve refused) 1000000 connected in
  c = Throw (type_error VUndef "response") ∧
  trace w' = trace connected ++
    [SetLoadingListings true; SetListingsError VNull;
     Network GetActiveListings; SetLoadingListings false] ∧
  localStorage w' = localStorage connected ∧
  dash w' = {| page := page (dash connected);
               ebayToken := ebayToken (dash connected);
               needsConnection := needsConnection (dash connected);
               loadingListings := false; listingsError := VNull |}.
Proof.
  assert (Hn : nullish VUndef = true) by reflexivity.
  split; [ exact Hn | ].
  exact (fetchListings_nullish_error_escapes alice VUndef (Resolve refused)
           1000000 connected Hn).
Defined.

Lemma fetchListings_expired_without_user_witness :
  nullish VNull = true ∧ token_expired_932 expired_listings ∧
  let message :=
    js_or (VStr (TypeError_message VNull "id"))
          (VStr "Error loading listings.") in
  let '(c, w') :=
    fetchListings VNull (Resolve expired_listings) (Resolve (granted "xyz" 3600))
      1000000 connected in
  c = Normal () ∧
  trace w' = trace connected ++
    [SetLoadingListings true; SetListingsError VNull;
     Network GetActiveListings; SetListingsError message;
     SetLoadingListings false] ∧
  localStorage w' = localStorage connected ∧
  ebayToken (dash w') = ebayToken (dash connected) ∧
  needsConnection (dash w') = needsConnection (dash connected) ∧
  listingsError (dash w') = message.
Proof.
  assert (Hn : nullish VNull = true) by reflexivity.
  split; [ exact Hn | ]. split; [ exact expired_listings_932 | ].
  exact (fetchListings_expired_without_user VNull expired_listings
           (Resolve (granted "xyz" 3600)) 1000000 connected Hn
           expired_listings_932).
Defined.

Lemma unauthorized_ends_the_cycle_witness :
  truthy (VStr "abc") = true ∧ carries_401 unauthorized = true ∧
  let w' :=
    (listings_effect alice (VStr "abc") (Reject unauthorized)
       (Resolve refused) 1000000 connected).2 in
  let run :=
    effects_of
      (listings_effect alice (VStr "abc") (Reject unauthorized)
         (Resolve refused) 1000000) connected in
  listings_effect_reruns (VStr "abc") run = true ∧
  (∀ pathname, Home_view (dash w') pathname = ConnectPrompt) ∧
  ∀ (listings' refresh' : outcome) (now' : Z),
    listings_effect alice (ebayToken (dash w')) listings' refresh' now' w'
    = (Normal (), w').
Proof.
  assert (Htok : truthy (VStr "abc") = true) by reflexivity.
  assert (H401 : carries_401 unauthorized = true) by reflexivity.
  split; [ exact Htok | ]. split; [ exact H401 | ].
  exact (unauthorized_ends_the_cycle alice (VStr "abc") unauthorized
           (Resolve refused) 1000000 connected Htok H401).
Defined.

Lemma view_after_success_witness :
  needsConnection (dash connected) = false ∧
  truthy (own_prop success_only "success") = true ∧
  Home_view
    (dash (fetchListings alice (Resolve success_only) (Reject network_error)
             1000000 connected).2) "/home"
  = Chrome (Some (ListingsPanel (page (dash connected)))).
Proof.
  assert (Hc : needsConnection (dash connected) = false) by reflexivity.
  assert (Hs : truthy (own_prop success_only "success") = true)
    by reflexivity.
  split; [ exact Hc | ]. split; [ exact Hs | ].
  exact (view_after_success alice success_only (Reject network_error)
           1000000 connected Hc Hs).
Defined.

Lemma view_after_plain_failure_witness :
  needsConnection (dash connected) = false ∧
  nullish rate_limited = false ∧
  truthy (own_prop rate_limited "success") = false ∧
  strict_eq_num
    (get_opt (elem0_opt (own_prop rate_limited "errors")) "errorId") 932
  = false ∧
  let message :=
    js_or (own_prop rate_limited "error") (VStr "Failed to load listings.") in
  Home_view
    (dash (fetchListings alice (Resolve rate_limited) (Reject network_error)
             1000000 connected).2) "/home"
  = if valid_child message
    then Chrome (Some (ErrorPanel message))
    else RenderThrows message.
Proof.
  assert (Hc : needsConnection (dash connected) = false) by reflexivity.
  assert (Hn : nullish rate_limited = false) by reflexivity.
  assert (Hs : truthy (own_prop rate_limited "success") = false)
    by reflexivity.
  assert (H932 : strict_eq_num
            (get_opt (elem0_opt (own_prop rate_limited "errors")) "errorId")
            932 = false) by reflexivity.
  split; [ exact Hc | ]. split; [ exact Hn | ]. split; [ exact Hs | ].
  split; [ exact H932 | ].
  exact (view_after_plain_failure alice rate_limited (Reject network_error)
           1000000 connected Hc Hn Hs H932).
Defined.

Lemma theme_not_purged : "theme" ∉ purged_keys.
Proof.
  unfold purged_keys. rewrite !not_elem_of_cons.
  repeat (split; [ discriminate | ]). apply not_elem_of_nil.
Defined.

Lemma handleAuthFailure_spares_other_keys_witness :
  ("theme" ∉ purged_keys) ∧
  localStorage (handleAuthFailure settled).2 !! "theme"
  = localStorage settled !! "theme".
Proof.
  split; [ exact theme_not_purged | ].
  exact (handleAuthFailure_spares_other_keys settled "theme"
           theme_not_purged).
Defined.

Lemma token_status_xyz_granted : token_granted token_status_xyz = true.
Proof. reflexivity. Defined.

Lemma getValidAuthToken_stores_grant_witness :
  ¬ local_record_valid bare 1000000 ∧
  token_granted token_status_xyz = true ∧
  let token := own_prop (own_prop token_status_xyz "data") "access_token" in
  let lifetime :=
    own_prop (own_prop token_status_xyz "data") "expires_in_seconds" in
  let record :=
    JSON_stringify
      (AccessTokenRecord token
         (VNum (num_add (Num 1000005)
                  (num_mul (ToNumber lifetime) (Num 1000))))) in
  let '(c, w') :=
    getValidAuthToken (VStr "u1") 1000000 (Resolve token_status_xyz) 1000005
      bare in
  c = Normal token ∧
  localStorage w' = <["ebay_user_token" := record]> (localStorage bare) ∧
  dash w' = dash bare ∧
  trace w' = trace bare ++
    [Network (GetEbayUserToken (VStr "u1"));
     StorageSet "ebay_user_token" record].
Proof.
  split; [ exact bare_invalid | ].
  split; [ exact token_status_xyz_granted | ].
  exact (getValidAuthToken_stores_grant (VStr "u1") token_status_xyz 1000000
           1000005 bare bare_invalid token_status_xyz_granted).
Defined.

Lemma getValidAuthToken_footprint_witness :
  "theme" ≠ "ebay_user_token" ∧
  let '(c, w') :=
    getValidAuthToken (VStr "u1") 3000000 (Resolve token_status_xyz) 3000005
      settled in
  dash w' = dash settled ∧
  localStorage w' !! "theme" = localStorage settled !! "theme" ∧
  ∃ run, trace w' = trace settled ++ run ∧
    (run = [] ∧ localStorage w' = localStorage settled
       ∧ (∃ token, c = Normal token ∧ truthy token = true)
     ∨ run = [Network (GetEbayUserToken (VStr "u1"))]
       ∧ localStorage w' = localStorage settled ∧ c = Normal VNull
     ∨ ∃ text, run = [Network (GetEbayUserToken (VStr "u1"));
                      StorageSet "ebay_user_token" text]).
Proof.
  assert (Hk : "theme" ≠ "ebay_user_token") by discriminate.
  split; [ exact Hk | ].
  exact (getValidAuthToken_footprint (VStr "u1") 3000000
           (Resolve token_status_xyz) 3000005 settled "theme" Hk).
Defined.

Lemma fresh_invalid : ¬ local_record_valid fresh 1000000.
Proof. apply no_record_invalid. reflexivity. Defined.

Lemma stored_grant_is_reused_witness :
  let record :=
    AccessTokenRecord (VStr "xyz") (VNum (Num (1000005 + 3600 * 1000))) in
  JSON_stringify record ≠ "" ∧
  JSON_parse (JSON_stringify record) = Some record ∧
  ¬ local_record_valid fresh 1000000 ∧ "xyz" ≠ "" ∧
  4600004 < 1000005 + 3600 * 1000 ∧
  let '(first, w1) :=
    getValidAuthToken (VStr "u1") 1000000 (Resolve token_status_xyz) 1000005
      fresh in
  let '(second, w2) :=
    getValidAuthToken (VStr "u1") 4600004 (Reject network_error) 4600004 w1 in
  first = Normal (VStr "xyz") ∧ second = Normal (VStr "xyz") ∧ w2 = w1.
Proof.
  intros record.
  assert (Hne : JSON_stringify record ≠ "") by (vm_compute; discriminate).
  assert (Hparse : JSON_parse (JSON_stringify record) = Some record)
    by (vm_compute; reflexivity).
  assert (Htok : "xyz" ≠ "") by discriminate.
  assert (Hlater : 4600004 < 1000005 + 3600 * 1000) by lia.
  split; [ exact Hne | ]. split; [ exact Hparse | ].
  split; [ exact fresh_invalid | ]. split; [ exact Htok | ].
  split; [ exact Hlater | ].
  exact (stored_grant_is_reused (VStr "u1") "xyz" 3600 1000000 1000005
           4600004 4600004 (Reject network_error) fresh Hne Hparse
           fresh_invalid Htok Hlater).
Defined.

Lemma oauth_message_code : truthy (own_prop oauth_message "code") = true.
Proof. reflexivity. Defined.

Lemma alice_has_id : truthy (get_opt alice "id") = true.
Proof. reflexivity. Defined.

Lemma handleMessage_exchange_stored_witness :
  nullish oauth_message = false ∧
  truthy (own_prop oauth_message "code") = true ∧
  truthy (get_opt alice "id") = true ∧
  truthy (own_prop exchanged_tok "success") = true ∧
  nullish (own_prop exchanged_tok "data") = false ∧
  let code := own_prop oauth_message "code" in
  let userId := own_prop alice "id" in
  let data := own_prop exchanged_tok "data" in
  let access_token := own_prop data "access_token" in
  let refresh_token := own_prop data "refresh_token" in
  let expiresIn := js_or (own_prop data "expires_in") (VNum (Num 7200)) in
  let record :=
    JSON_stringify
      (AccessTokenRecord access_token
         (VNum (num_add (Num 1000000)
                  (num_mul (ToNumber expiresIn) (Num 1000))))) in
  let '(c, w') :=
    handleMessage alice window_location_origin oauth_message
      (Resolve exchanged_tok) 1000000 fresh in
  c = Normal () ∧
  trace w' = trace fresh ++
    [Network (ExchangeCode code userId); StorageSet "userId" (ToString userId);
     StorageSet "ebay_user_token" record] ++
    (if truthy refresh_token
     then [StorageSet "ebay_refresh_token" (ToString refresh_token)]
     else []) ++
    [SetEbayToken access_token; SetNeedsConnection false] ∧
  localStorage w' !! "userId" = Some (ToString userId) ∧
  localStorage w' !! "ebay_user_token" = Some record ∧
  localStorage w' !! "ebay_refresh_token"
  = (if truthy refresh_token then Some (ToString refresh_token)
     else localStorage fresh !! "ebay_refresh_token") ∧
  dash w' = {| page := page (dash fresh); ebayToken := access_token;
               needsConnection := false;
               loadingListings := loadingListings (dash fresh);
               listingsError := listingsError (dash fresh) |}.
Proof.
  assert (Hdata : nullish oauth_message = false) by reflexivity.
  assert (Hs : truthy (own_prop exchanged_tok "success") = true)
    by reflexivity.
  assert (Hd : nullish (own_prop exchanged_tok "data") = false)
    by reflexivity.
  split; [ exact Hdata | ]. split; [ exact oauth_message_code | ].
  split; [ exact alice_has_id | ]. split; [ exact Hs | ].
  split; [ exact Hd | ].
  exact (handleMessage_exchange_stored alice oauth_message exchanged_tok
           1000000 fresh Hdata oauth_message_code alice_has_id Hs Hd).
Defined.

Lemma handleMessage_exchange_failed_witness :
  nullish oauth_message = false ∧
  truthy (own_prop oauth_message "code") = true ∧
  truthy (get_opt alice "id") = true ∧
  exchange_refused (Resolve refused) ∧
  handleMessage alice window_location_origin oauth_message (Resolve refused)
    1000000 fresh
  = (Normal (),
     emit (Network (ExchangeCode (own_prop oauth_message "code")
                      (own_prop alice "id"))) fresh).
Proof.
  assert (Hdata : nullish oauth_message = false) by reflexivity.
  assert (Href : exchange_refused (Resolve refused))
    by (right; reflexivity).
  split; [ exact Hdata | ]. split; [ exact oauth_message_code | ].
  split; [ exact alice_has_id | ]. split; [ exact Href | ].
  exact (handleMessage_exchange_failed alice oauth_message (Resolve refused)
           1000000 fresh Hdata oauth_message_code alice_has_id Href).
Defined.

Lemma handleMessage_nullish_data_throws_witness :
  nullish VUndef = true ∧
  handleMessage alice window_location_origin VUndef (Resolve exchanged_tok)
    1000000 connected
  = (Throw (type_error VUndef "code"), connected).
Proof.
  assert (Hdata : nullish VUndef = true) by reflexivity.
  split; [ exact Hdata | ].
  exact (handleMessage_nullish_data_throws alice VUndef
           (Resolve exchanged_tok) 1000000 connected Hdata).
Defined.

Lemma handleMessage_partial_write_witness :
  nullish oauth_message = false ∧
  truthy (own_prop oauth_message "code") = true ∧
  truthy (get_opt alice "id") = true ∧
  truthy (own_prop success_only "success") = true ∧
  nullish (own_prop success_only "data") = true ∧
  let userId := own_prop alice "id" in
  let '(c, w') :=
    handleMessage alice window_location_origin oauth_message
      (Resolve success_only) 1000000 fresh in
  c = Normal () ∧
  trace w' = trace fresh ++
    [Network (ExchangeCode (own_prop oauth_message "code") userId);
     StorageSet "userId" (ToString userId)] ∧
  localStorage w' = <["userId" := ToString userId]> (localStorage fresh) ∧
  dash w' = dash fresh.
Proof.
  assert (Hdata : nullish oauth_message = false) by reflexivity.
  assert (Hs : truthy (own_prop success_only "success") = true)
    by reflexivity.
  assert (Hd : nullish (own_prop success_only "data") = true)
    by reflexivity.
  split; [ exact Hdata | ]. split; [ exact oauth_message_code | ].
  split; [ exact alice_has_id | ]. split; [ exact Hs | ].
  split; [ exact Hd | ].
  exact (handleMessage_partial_write alice oauth_message success_only
           1000000 fresh Hdata oauth_message_code alice_has_id Hs Hd).
Defined.

Lemma handleMessage_footprint_witness :
  "theme" ≠ "userId" ∧ "theme" ≠ "ebay_user_token" ∧
  "theme" ≠ "ebay_refresh_token" ∧
  let w' :=
    (handleMessage alice window_location_origin oauth_message
       (Resolve exchanged_tok) 1000000 settled).2 in
  localStorage w' !! "theme" = localStorage settled !! "theme" ∧
  page (dash w') = page (dash settled) ∧
  loadingListings (dash w') = loadingListings (dash settled) ∧
  listingsError (dash w') = listingsError (dash settled) ∧
  (needsConnection (dash w') = needsConnection (dash settled)
   ∨ needsConnection (dash w') = false).
Proof.
  assert (H1 : "theme" ≠ "userId") by discriminate.
  assert (H2 : "theme" ≠ "ebay_user_token") by discriminate.
  assert (H3 : "theme" ≠ "ebay_refresh_token") by discriminate.
  split; [ exact H1 | ]. split; [ exact H2 | ]. split; [ exact H3 | ].
  exact (handleMessage_footprint alice window_location_origin oauth_message
           (Resolve exchanged_tok) 1000000 settled "theme" H1 H2 H3).
Defined.

Lemma alice_id : truthy (own_prop alice "id") = true.
Proof. reflexivity. Defined.

Lemma fresh_no_local_token : no_local_token fresh.
Proof. left. reflexivity. Defined.

Lemma checkToken_prompts_to_connect_witness :
  truthy (own_prop alice "id") = true ∧ no_local_token fresh ∧
  remote_failed (Reject network_error) ∧
  let '(c, w') :=
    checkToken alice 1000000 (Reject network_error) 1000000 fresh in
  c = Normal () ∧
  trace w' = trace fresh ++
    [Network (GetEbayUserToken (own_prop alice "id"));
     SetNeedsConnection true] ∧
  localStorage w' = localStorage fresh ∧
  ebayToken (dash w') = ebayToken (dash fresh) ∧
  ∀ pathname, Home_view (dash w') pathname = ConnectPrompt.
Proof.
  split; [ exact alice_id | ]. split; [ exact fresh_no_local_token | ].
  split; [ exact (failed_thrown network_error) | ].
  exact (checkToken_prompts_to_connect alice 1000000 (Reject network_error)
           1000000 fresh alice_id fresh_no_local_token
           (failed_thrown network_error)).
Defined.

Lemma checkToken_overwrites_fresh_record_witness :
  truthy (own_prop alice "id") = true ∧ no_local_token fresh ∧
  token_granted token_status_xyz = true ∧
  let token := own_prop (own_prop token_status_xyz "data") "access_token" in
  let lifetime :=
    own_prop (own_prop token_status_xyz "data") "expires_in_seconds" in
  let record :=
    JSON_stringify
      (AccessTokenRecord token
         (VNum (num_add (Num 1000005)
                  (num_mul (ToNumber lifetime) (Num 1000))))) in
  truthy token = true ∧
  let '(c, w') :=
    checkToken alice 1000000 (Resolve token_status_xyz) 1000005 fresh in
  c = Normal () ∧
  trace w' = trace fresh ++
    [Network (GetEbayUserToken (own_prop alice "id"));
     StorageSet "ebay_user_token" record;
     StorageSet "ebay_user_token" (ToString token);
     SetEbayToken token; SetNeedsConnection false] ∧
  localStorage w'
  = <["ebay_user_token" := ToString token]> (localStorage fresh) ∧
  ebayToken (dash w') = token ∧ needsConnection (dash w') = false.
Proof.
  assert (Htok : truthy
            (own_prop (own_prop token_status_xyz "data") "access_token")
          = true) by reflexivity.
  split; [ exact alice_id | ]. split; [ exact fresh_no_local_token | ].
  split; [ exact token_status_xyz_granted | ]. split; [ exact Htok | ].
  exact (checkToken_overwrites_fresh_record alice token_status_xyz 1000000
           1000005 fresh alice_id fresh_no_local_token
           token_status_xyz_granted Htok).
Defined.

Lemma checkToken_footprint_witness :
  "theme" ≠ "ebay_user_token" ∧
  let '(c, w') :=
    checkToken alice 1000000 (Reject network_error) 1000000 settled in
  c = Normal () ∧
  localStorage w' !! "theme" = localStorage settled !! "theme" ∧
  page (dash w') = page (dash settled) ∧
  loadingListings (dash w') = loadingListings (dash settled) ∧
  listingsError (dash w') = listingsError (dash settled).
Proof.
  assert (Hk : "theme" ≠ "ebay_user_token") by discriminate.
  split; [ exact Hk | ].
  exact (checkToken_footprint alice 1000000 (Reject network_error) 1000000
           settled "theme" Hk).
Defined.

(** ** Where the specification's sentences fail *)

(** C2 as stated fails for a granted lifetime of zero: the persisted
    expiry is not [now + expires_in * 1000] but two hours ahead. *)
Lemma refresh_zero_lifetime_counterexample :
  let refreshed := granted "xyz" 0 in
  let expires_in := own_prop (own_prop refreshed "data") "expires_in" in
  let w' :=
    (listings_effect alice (VStr "abc") (Resolve expired_listings)
       (Resolve refreshed) 1000000 connected).2 in
  refresh_granted refreshed = true ∧
  localStorage w' !! "ebay_user_token"
  ≠ Some (JSON_stringify
            (AccessTokenRecord (VStr "xyz")
               (VNum (num_add (Num 1000000)
                        (num_mul (ToNumber expires_in) (Num 1000)))))) ∧
  localStorage w' !! "ebay_user_token"
  = Some (JSON_stringify
            (AccessTokenRecord (VStr "xyz") (VNum (Num 8200000)))).
Proof.
  cbn zeta. split; [ reflexivity | ].
  split; [ vm_compute; discriminate | vm_compute; reflexivity ].
Qed.

(** C3 as stated fails when the refresh call fails by rejecting with a
    network error: nothing is torn down and the error is shown. *)
Lemma refresh_rejected_counterexample :
  let w' :=
    (fetchListings alice (Resolve expired_listings) (Reject network_error)
       1000000 connected).2 in
  ¬ torn_down w' ∧
  localStorage w' !! "ebay_user_token" = Some record_abc ∧
  localStorage w' !! "ebay_refresh_token" = Some "r1" ∧
  ebayToken (dash w') = VStr "abc" ∧
  needsConnection (dash w') = false ∧
  listingsError (dash w') = VStr "Network Error".
Proof.
  cbn zeta. split; [ | vm_compute; repeat split; reflexivity ].
  intros (Hkey & _). vm_compute in Hkey. discriminate.
Qed.

(** C10 as stated fails for the empty string: it is stored, yet
    [ebayToken] is never set to it and a failed validation raises the
    connect prompt. *)
Lemma checkToken_blank_counterexample :
  let w' :=
    (checkToken alice 1000000 (Reject network_error) 1000000 blank).2 in
  localStorage blank !! "ebay_user_token" = Some "" ∧
  trace w'
  = [Network (GetEbayUserToken (VStr "u1")); SetNeedsConnection true] ∧
  ebayToken (dash w') = VNull ∧
  needsConnection (dash w') = true.
Proof. vm_compute. done. Qed.
